(** * L-SHADE generation controller (pyade/lshade.py)

    A shallow embedding of [pyade.lshade.apply] and of the pieces of NumPy,
    SciPy and the Python runtime that it calls, followed by the properties
    of the controller: the F/CR sampling protocol, the success-history
    memory, the archive, the population-size schedule and the stagnation
    countdown.

    Conventions.
    - Python [float] and NumPy [float64] are IEEE-754 binary64: they are
      modelled by Rocq's primitive floats, so NaN, infinities and rounding
      behave as they do in the program.
    - Python [int] is modelled by [Z].
    - Exceptions and loops that need not terminate are modelled by the
      [outcome] type: [Ret] a value, [Raise] an exception, or [Diverge] when
      the fuel given to a [while] loop is used up before the loop exits.
    - The two random generators (NumPy's and Python's [random]) are
      modelled by the sequence of raw values their successive calls yield. *)

From Stdlib Require Import String ZArith List Bool Lia.
From Stdlib Require Import PrimFloat FloatOps SpecFloat FloatAxioms.
From Stdlib Require Import Permutation Sorted.
Import ListNotations.

Set Warnings "-inexact-float".
Local Open Scope Z_scope.

(* ===================================================================== *)
(** ** Outcomes: values, exceptions, non-termination *)
(* ===================================================================== *)

Inductive exn : Type :=
| ValueError (msg : string)
| TypeError
| IndexError
| OverflowError
| ZeroDivisionError.

Inductive outcome (A : Type) : Type :=
| Ret (a : A)
| Raise (e : exn)
| Diverge.

Arguments Ret {A} a.
Arguments Raise {A} e.
Arguments Diverge {A}.

Definition bind {A B : Type} (m : outcome A) (f : A -> outcome B) : outcome B :=
  match m with
  | Ret a => f a
  | Raise e => Raise e
  | Diverge => Diverge
  end.

Declare Scope outcome_scope.
Delimit Scope outcome_scope with outcome.
Notation "x <- m ;; k" := (bind m (fun x => k))
  (at level 61, m at next level, right associativity) : outcome_scope.
Notation "' p <- m ;; k" := (bind m (fun p => k))
  (at level 61, p pattern, m at next level, right associativity) : outcome_scope.
Local Open Scope outcome_scope.

(* ===================================================================== *)
(** ** Python values reaching [apply]'s dynamically checked parameters *)
(* ===================================================================== *)

(** The run-time values that the parameter checks of [apply] distinguish.
    [NpFloat64] is [numpy.float64], which is a subclass of Python's
    [float]; [NpUInt32] and [NpUInt64] are the NumPy integer scalars that
    the seed check names. *)
Inductive pyval : Type :=
| PyNone
| PyBool (b : bool)
| PyInt (z : Z)
| PyFloat (x : float)
| NpFloat64 (x : float)
| NpUInt32 (n : Z)
| NpUInt64 (n : Z)
| PyStr (s : string).

(** [type(v) is int]: the exact type, so [bool] does not qualify. *)
Definition type_is_int (v : pyval) : bool :=
  match v with PyInt _ => true | _ => false end.

(** [type(v) is float]: the exact type. *)
Definition type_is_float (v : pyval) : bool :=
  match v with PyFloat _ => true | _ => false end.

(** [isinstance(v, int)]: [bool] is a subclass of [int]. *)
Definition isinstance_int (v : pyval) : bool :=
  match v with PyInt _ | PyBool _ => true | _ => false end.

(** [isinstance(v, float)]: [numpy.float64] is a subclass of [float]. *)
Definition isinstance_float (v : pyval) : bool :=
  match v with PyFloat _ | NpFloat64 _ => true | _ => false end.

(** [v <= 0] and [v > 0] against the int literal [0]; ordering [None] or a
    [str] against an int raises [TypeError]. *)
Definition py_le_zero (v : pyval) : outcome bool :=
  match v with
  | PyNone | PyStr _ => Raise TypeError
  | PyBool b => Ret (negb b)
  | PyInt z | NpUInt32 z | NpUInt64 z => Ret (z <=? 0)
  | PyFloat x | NpFloat64 x => Ret (x <=? 0)%float
  end.

Definition py_gt_zero (v : pyval) : outcome bool :=
  match v with
  | PyNone | PyStr _ => Raise TypeError
  | PyBool b => Ret b
  | PyInt z | NpUInt32 z | NpUInt64 z => Ret (0 <? z)
  | PyFloat x | NpFloat64 x => Ret (0 <? x)%float
  end.

(** The integer an [int] instance stands for. *)
Definition int_value (v : pyval) : Z :=
  match v with
  | PyInt z | NpUInt32 z | NpUInt64 z => z
  | PyBool true => 1
  | _ => 0
  end.

(** The float a [float] instance stands for. *)
Definition float_value (v : pyval) : float :=
  match v with
  | PyFloat x | NpFloat64 x => x
  | _ => nan
  end.

(* ===================================================================== *)
(** ** Floating-point helpers: Python and NumPy primitives *)
(* ===================================================================== *)

(** An [int] as an exact (unrounded) binary number. *)
Definition Z2SF (z : Z) : spec_float :=
  match z with
  | Z0 => S754_zero false
  | Zpos p => S754_finite false p 0
  | Zneg p => S754_finite true p 0
  end.

(** Conversion of an [int] to a [float] (round to nearest, ties to even),
    as happens when an int meets a float in [*] or [+]; an int beyond the
    float range raises [OverflowError]. *)
Definition float_of_int (z : Z) : outcome float :=
  let x := SF2Prim (binary_normalize prec emax z 0 false) in
  if is_infinity x then Raise OverflowError else Ret x.

(** [a / b] on two ints: the correctly rounded quotient. *)
Definition int_truediv (a b : Z) : outcome float :=
  if b =? 0 then Raise ZeroDivisionError
  else
    let x := SF2Prim (SFdiv prec emax (Z2SF a) (Z2SF b)) in
    if is_infinity x then Raise OverflowError else Ret x.

(** Rounding of the exact value [m * 2^e] ([m >= 0]) to the nearest
    integer, ties to the even one. *)
Definition round_half_even (m e : Z) : Z :=
  if 0 <=? e then m * 2 ^ e
  else
    let d := 2 ^ (- e) in
    let q := m / d in
    match (2 * (m mod d)) ?= d with
    | Lt => q
    | Gt => q + 1
    | Eq => if Z.even q then q else q + 1
    end.

(** Python's [round(x)] on a float: an int, ties to even; NaN and the
    infinities raise. *)
Definition py_round (x : float) : outcome Z :=
  match Prim2SF x with
  | S754_nan => Raise (ValueError "cannot convert float NaN to integer")
  | S754_infinity _ => Raise OverflowError
  | S754_zero _ => Ret 0
  | S754_finite s m e =>
      let v := round_half_even (Zpos m) e in
      Ret (if s then - v else v)
  end.

Definition np_isnan (x : float) : bool := is_nan x.

(** [np.clip(x, lo, hi)] on one entry; a NaN stays a NaN. *)
Definition np_clip (lo hi x : float) : float :=
  if (x <? lo)%float then lo else if (hi <? x)%float then hi else x.

(** [np.sum]: accumulation from [0.0], left to right (NumPy's order for
    arrays of fewer than eight entries). *)
Definition np_sum (xs : list float) : float :=
  fold_left PrimFloat.add xs 0%float.

(** The smaller of two entries for [np.min]: a NaN wins. *)
Definition fmin (a b : float) : float :=
  if is_nan a then a else if is_nan b then b
  else if (b <? a)%float then b else a.

(** [np.min]: raises on an empty array, propagates NaN. *)
Definition np_min (xs : list float) : outcome float :=
  match xs with
  | [] => Raise (ValueError "zero-size array to reduction operation minimum which has no identity")
  | x :: t => Ret (fold_left fmin t x)
  end.

(** [a] sorts strictly before [b]: NaN sorts last. *)
Definition sorts_before (a b : float) : bool :=
  if is_nan a then false else if is_nan b then true else (a <? b)%float.

Fixpoint insert_index (fit : list float) (i : nat) (sorted : list nat) : list nat :=
  match sorted with
  | [] => [i]
  | j :: rest =>
      if sorts_before (nth i fit nan) (nth j fit nan)
      then i :: j :: rest
      else j :: insert_index fit i rest
  end.

(** [np.argsort]: the indexes of the entries in ascending order of value
    (equal entries are kept in index order here; NumPy leaves their
    relative order unspecified). *)
Definition np_argsort (fit : list float) : list nat :=
  fold_left (fun acc i => insert_index fit i acc) (seq 0 (length fit)) [].

Fixpoint argmin_from (best : nat) (bv : float) (i : nat) (xs : list float) : nat :=
  match xs with
  | [] => best
  | x :: t =>
      if is_nan bv then best
      else if (is_nan x || (x <? bv)%float)%bool
           then argmin_from i x (S i) t
           else argmin_from best bv (S i) t
  end.

(** [np.argmin]: index of the first minimum (of the first NaN if any). *)
Definition np_argmin (xs : list float) : outcome nat :=
  match xs with
  | [] => Raise (ValueError "attempt to get argmin of an empty sequence")
  | x :: t => Ret (argmin_from 0%nat x 1%nat t)
  end.

(** Python's slice [xs[:n]]: a negative [n] counts from the end. *)
Definition py_take {A : Type} (n : Z) (xs : list A) : list A :=
  if 0 <=? n then firstn (Z.to_nat n) xs
  else firstn (Z.to_nat (Z.of_nat (length xs) + n)) xs.

(** Fancy indexing [xs[idx]] with an array of valid indexes. *)
Definition take_indexes {A : Type} (d : A) (xs : list A) (idx : list nat) : list A :=
  map (fun i => nth i xs d) idx.

(** In-place assignment [xs[i] = v]. *)
Fixpoint set_nth {A : Type} (i : nat) (v : A) (xs : list A) : list A :=
  match xs, i with
  | [], _ => []
  | _ :: t, O => v :: t
  | x :: t, S j => x :: set_nth j v t
  end.

(** [xs[idx] = ys[idx]]: the entries of [xs] at the positions [idx] are
    overwritten by those of [ys]. *)
Definition assign_at (d : float) (xs ys : list float) (idx : list nat) : list float :=
  fold_left (fun acc i => set_nth i (nth i ys d) acc) idx xs.

(* ===================================================================== *)
(** ** The random generators *)
(* ===================================================================== *)

(** A generator state: the raw values that NumPy's global generator will
    yield (bounded-integer draws on [np_ints], standard normal and
    standard Cauchy variates on [np_reals]), those that Python's [random]
    module will yield ([py_ints]), and how far each has been read. *)
Record Rng : Type := mkRng {
  np_ints : nat -> nat;
  np_reals : nat -> float;
  py_ints : nat -> nat;
  np_ipos : nat;
  np_rpos : nat;
  py_pos : nat
}.

Definition next_ints (n : nat) (g : Rng) : list nat * Rng :=
  (map (fun i => np_ints g (np_ipos g + i)%nat) (seq 0 n),
   mkRng (np_ints g) (np_reals g) (py_ints g) (np_ipos g + n) (np_rpos g) (py_pos g)).

Definition next_reals (n : nat) (g : Rng) : list float * Rng :=
  (map (fun i => np_reals g (np_rpos g + i)%nat) (seq 0 n),
   mkRng (np_ints g) (np_reals g) (py_ints g) (np_ipos g) (np_rpos g + n) (py_pos g)).

Definition next_py_int (g : Rng) : nat * Rng :=
  (py_ints g (py_pos g),
   mkRng (np_ints g) (np_reals g) (py_ints g) (np_ipos g) (np_rpos g) (S (py_pos g))).

(** [np.random.choice(a, size)]: [size] entries of [a], each picked by one
    bounded draw. *)
Definition np_random_choice (a : list nat) (size : Z) (g : Rng) : outcome (list nat * Rng) :=
  if size <? 0 then Raise (ValueError "negative dimensions are not allowed")
  else if (Nat.eqb (length a) 0 && (0 <? size))%bool
  then Raise (ValueError "'a' cannot be empty unless no samples are taken")
  else
    let '(raw, g') := next_ints (Z.to_nat size) g in
    Ret (map (fun x => nth (x mod length a) a 0%nat) raw, g').

(** [np.random.normal(loc, scale, size)] with an array [loc] of [size]
    entries: [loc + scale * z] for a standard normal variate [z]. *)
Definition np_random_normal (loc : list float) (scale : float) (g : Rng) : list float * Rng :=
  let '(zs, g') := next_reals (length loc) g in
  (map (fun lz => (fst lz + scale * snd lz)%float) (combine loc zs), g').

(** [scipy.stats.cauchy.rvs(loc=loc, scale=scale, size=size)] with an
    array [loc] of [size] entries: [z * scale + loc] for a standard Cauchy
    variate [z]. *)
Definition cauchy_rvs (loc : list float) (scale : float) (g : Rng) : list float * Rng :=
  let '(zs, g') := next_reals (length loc) g in
  (map (fun lz => (snd lz * scale + fst lz)%float) (combine loc zs), g').

(** [random.sample(pool, k)]: [k] entries at distinct positions of
    [pool], each position picked by one bounded draw among those left. *)
Fixpoint sample_from {A : Type} (k : nat) (pool : list A) (g : Rng) : list A * Rng :=
  match k with
  | O => ([], g)
  | S k' =>
      match pool with
      | [] => ([], g)
      | x :: _ =>
          let '(raw, g1) := next_py_int g in
          let j := (raw mod length pool)%nat in
          let '(rest, g2) := sample_from k' (firstn j pool ++ skipn (S j) pool) g1 in
          (nth j pool x :: rest, g2)
      end
  end.

Definition random_sample {A : Type} (pool : list A) (k : Z) (g : Rng) : outcome (list A * Rng) :=
  if ((k <? 0) || (Z.of_nat (length pool) <? k))%bool
  then Raise (ValueError "Sample larger than population or is negative")
  else Ret (sample_from (Z.to_nat k) pool g).

(* ===================================================================== *)
(** ** 2.1 Adaptation: the CR and F values of one generation *)
(* ===================================================================== *)

(** [all_indexes = list(range(memory_size))]. *)
Definition all_indexes (memory_size : Z) : list nat := seq 0 (Z.to_nat memory_size).

(** [cr = np.random.normal(m_cr[r], 0.1, population_size)];
    [cr = np.clip(cr, 0, 1)]; [cr[m_cr[r] == 1] = 0]. *)
Definition sample_cr (m_cr : list float) (r : list nat) (g : Rng) : list float * Rng :=
  let loc := take_indexes nan m_cr r in
  let '(cr, g') := np_random_normal loc 0.1%float g in
  let cr := map (np_clip 0 1) cr in
  (map (fun lc => if (fst lc =? 1)%float then 0%float else snd lc) (combine loc cr), g').

(** [sum(f <= 0)]. *)
Definition count_invalid (f : list float) : nat :=
  length (filter (fun x => (x <=? 0)%float) f).

(** [f[f > 1] = 0]. *)
Definition zero_above_one (f : list float) : list float :=
  map (fun x => if (1 <? x)%float then 0%float else x) f.

(** [f[f <= 0] = fresh]: the entries that are [<= 0] receive the fresh
    values in order. *)
Fixpoint refill (f fresh : list float) : list float :=
  match f with
  | [] => []
  | x :: t =>
      if (x <=? 0)%float then
        match fresh with
        | y :: ys => y :: refill t ys
        | [] => x :: refill t []
        end
      else x :: refill t fresh
  end.

(** The loop [while sum(f <= 0) != 0: ...]; [fuel] bounds the number of
    iterations that are followed. *)
Fixpoint resample_f (fuel : nat) (memory_size : Z) (m_f : list float)
    (f : list float) (g : Rng) : outcome (list float * Rng) :=
  if Nat.eqb (count_invalid f) 0 then Ret (f, g)
  else
    match fuel with
    | O => Diverge
    | S fuel' =>
        '(r, g1) <- np_random_choice (all_indexes memory_size) (Z.of_nat (count_invalid f)) g ;;
        let '(fresh, g2) := cauchy_rvs (take_indexes nan m_f r) 0.1%float g1 in
        resample_f fuel' memory_size m_f (refill f fresh) g2
    end.

(** [f = scipy.stats.cauchy.rvs(loc=m_f[r], scale=0.1, size=population_size)];
    [f[f > 1] = 0]; then the resampling loop. *)
Definition sample_f (fuel : nat) (memory_size : Z) (m_f : list float)
    (r : list nat) (g : Rng) : outcome (list float * Rng) :=
  let '(f, g1) := cauchy_rvs (take_indexes nan m_f r) 0.1%float g in
  resample_f fuel memory_size m_f (zero_above_one f) g1.

(** Lines 114-123: the index draw, then CR, then F. *)
Definition sample_parameters (fuel : nat) (memory_size : Z) (m_cr m_f : list float)
    (population_size : Z) (g : Rng) : outcome (list float * list float * Rng) :=
  '(r, g1) <- np_random_choice (all_indexes memory_size) population_size g ;;
  let '(cr, g2) := sample_cr m_cr r g1 in
  '(f, g3) <- sample_f fuel memory_size m_f r g2 ;;
  Ret (cr, f, g3).

(* ===================================================================== *)
(** ** The collaborators of [pyade.commons] *)
(* ===================================================================== *)

Definition individual : Type := list float.
Definition bounds_t : Type := list (float * float).

(** The operators of [pyade.commons] whose behaviour the controller does
    not depend on: population initialisation, current-to-pbest mutation
    and crossover. Each may consume random draws. *)
Class Commons : Type := {
  init_population :
    Z -> Z -> bounds_t -> Rng -> list individual * Rng;
  current_to_pbest_mutation :
    list individual -> list float -> list float -> list float -> bounds_t -> Rng ->
    list individual * Rng;
  crossover :
    list individual -> list individual -> list float -> Rng -> list individual * Rng
}.

(** Modelled from the spec: [pyade.commons.apply_fitness] is not among the
    sources; the spec gives it as batched objective evaluation, one real
    per individual. *)
Definition apply_fitness (population : list individual) (func : individual -> float)
  : list float :=
  map func population.

(** The success positions: those where the trial's fitness is [<=] the
    parent's. *)
Definition success_indexes (fitness c_fitness : list float) : list nat :=
  filter (fun i => (nth i c_fitness nan <=? nth i fitness nan)%float)
         (seq 0 (length fitness)).

Fixpoint replace_at (population crossed : list individual) (fitness c_fitness : list float)
  : list individual :=
  match population, crossed, fitness, c_fitness with
  | x :: xs, u :: us, fx :: fxs, fu :: fus =>
      (if (fu <=? fx)%float then u else x) :: replace_at xs us fxs fus
  | _, _, _, _ => population
  end.

(** Modelled from the spec: [pyade.commons.selection] is not among the
    sources; the spec gives it as elementwise minimisation returning the
    new population and the success index set, the trial replacing the
    parent when the trial's fitness is [<=] the parent's. Arrays of
    different lengths cannot be compared elementwise. *)
Definition selection (population crossed : list individual) (fitness c_fitness : list float)
  : outcome (list individual * list nat) :=
  if (Nat.eqb (length crossed) (length population)
      && Nat.eqb (length fitness) (length population)
      && Nat.eqb (length c_fitness) (length population))%bool
  then Ret (replace_at population crossed fitness c_fitness,
            success_indexes fitness c_fitness)
  else Raise (ValueError "operands could not be broadcast together").

(* ===================================================================== *)
(** ** The controller state and its constants *)
(* ===================================================================== *)

(** The local variables of [apply] that the generation loop reads and
    writes. *)
Record state : Type := mkState {
  population : list individual;
  fitness : list float;
  population_size : Z;
  archive : list individual;
  m_cr : list float;
  m_f : list float;
  k : nat;
  num_evals : Z;
  best_fitness : float;
  converge_countdown : Z;
  fitness_history : list float;
  current_generation : Z;
  rng : Rng
}.

(** The local variables of [apply] that the generation loop only reads. *)
Record config : Type := mkConfig {
  init_size : Z;
  individual_size : Z;
  max_evals : Z;
  memory_size : Z;
  precision : pyval;
  bounds : bounds_t;
  func : individual -> float
}.

(* ===================================================================== *)
(** ** 2.3 Adapt for next generation: archive and memory *)
(* ===================================================================== *)

(** Lines 142-150: the weighted Lehmer-mean update of slot [k] and the
    advance of the cursor. [fitness] is the parents' fitness, not yet
    overwritten at the success positions. *)
Definition update_memory (memory_size : Z) (m_cr m_f : list float) (k : nat)
    (fitness c_fitness cr f : list float) (indexes : list nat)
  : outcome (list float * list float * nat) :=
  let weights :=
    map (fun i => abs (nth i fitness nan - nth i c_fitness nan)%float) indexes in
  let total := np_sum weights in
  let weights := map (fun w => (w / total)%float) weights in
  let cr_s := take_indexes nan cr indexes in
  let f_s := take_indexes nan f indexes in
  let lehmer (xs : list float) : float :=
    (np_sum (map (fun wx => fst wx * (snd wx * snd wx)) (combine weights xs))
     / np_sum (map (fun wx => fst wx * snd wx) (combine weights xs)))%float in
  if (length m_cr <=? k)%nat then Raise IndexError
  else
    let m_cr := set_nth k (lehmer cr_s) m_cr in
    let m_cr := if np_isnan (nth k m_cr nan) then set_nth k 1%float m_cr else m_cr in
    if (length m_f <=? k)%nat then Raise IndexError
    else
      let m_f := set_nth k (lehmer f_s) m_f in
      let k := S k in
      let k := if Z.of_nat k =? memory_size then O else k in
      Ret (m_cr, m_f, k).

(** Lines 136-150. [population] is the value that [selection] returned,
    which line 132 has already bound to the name [population]. *)
Definition adapt (memory_size : Z) (population : list individual) (indexes : list nat)
    (population_size : Z) (fitness c_fitness cr f : list float)
    (archive : list individual) (m_cr m_f : list float) (k : nat) (g : Rng)
  : outcome (list individual * list float * list float * nat * Rng) :=
  let archive := archive ++ take_indexes [] population indexes in
  if (0 <? length indexes)%nat then
    '(archive, g) <-
      (if population_size <? Z.of_nat (length archive)
       then random_sample archive population_size g
       else Ret (archive, g)) ;;
    '(m_cr, m_f, k) <- update_memory memory_size m_cr m_f k fitness c_fitness cr f indexes ;;
    Ret (archive, m_cr, m_f, k, g)
  else Ret (archive, m_cr, m_f, k, g).

(* ===================================================================== *)
(** ** Adapt population size *)
(* ===================================================================== *)

(** [round((4 - init_size) / max_evals * num_evals + init_size)]. *)
Definition target_size (init_size max_evals num_evals : Z) : outcome Z :=
  slope <- int_truediv (4 - init_size) max_evals ;;
  n <- float_of_int num_evals ;;
  i <- float_of_int init_size ;;
  py_round (slope * n + i)%float.

(** Whether the target is computed and is at least [lo]. *)
Definition target_at_least (lo init_size max_evals num_evals : Z) : bool :=
  match target_size init_size max_evals num_evals with
  | Ret n => lo <=? n
  | _ => false
  end.

(** Lines 154-161. *)
Definition shrink (init_size max_evals num_evals : Z) (population_size : Z)
    (population : list individual) (fitness : list float) (k : nat)
  : outcome (Z * list individual * list float * nat) :=
  new_population_size <- target_size init_size max_evals num_evals ;;
  if new_population_size <? population_size then
    let population_size := new_population_size in
    let best_indexes := py_take population_size (np_argsort fitness) in
    let population := take_indexes [] population best_indexes in
    let fitness := take_indexes nan fitness best_indexes in
    let k := if Z.of_nat k =? init_size then O else k in
    Ret (population_size, population, fitness, k)
  else Ret (population_size, population, fitness, k).

(* ===================================================================== *)
(** ** Convergence monitor *)
(* ===================================================================== *)

(** The test of line 166:
    [isinstance(precision, float) and np.abs(np.min(fitness) - best_fitness) < precision]. *)
Definition stagnated (precision : pyval) (fitness : list float) (best_fitness : float)
  : outcome bool :=
  if isinstance_float precision then
    m <- np_min fitness ;;
    Ret (abs (m - best_fitness) <? float_value precision)%float
  else Ret false.

(** Lines 166-171: the new countdown, best fitness and history. *)
Definition monitor (precision : pyval) (fitness : list float) (best_fitness : float)
    (converge_countdown : Z) (fitness_history : list float)
  : outcome (Z * float * list float) :=
  stag <- stagnated precision fitness best_fitness ;;
  let converge_countdown := if stag then converge_countdown - 1 else converge_countdown in
  m <- np_min fitness ;;
  let best_fitness := if (m <? best_fitness)%float then m else best_fitness in
  Ret (converge_countdown, best_fitness, fitness_history ++ [m]).

(* ===================================================================== *)
(** ** One generation and the generation loop *)
(* ===================================================================== *)

Section Controller.

Context {commons : Commons}.
Variable cfg : config.

(** What lines 114-133 hand to the rest of the generation: the sampled
    [cr] and [f], the trial vectors [crossed] and their fitness, the
    population that [selection] returned, the success positions, and the
    generator. *)
Record trials : Type := mkTrials {
  t_cr : list float;
  t_f : list float;
  t_crossed : list individual;
  t_c_fitness : list float;
  t_population : list individual;
  t_indexes : list nat;
  t_rng : Rng
}.

(** Lines 114-133: adaptation, mutation, crossover, evaluation and
    selection. [fuel] bounds the resampling loop of line 121. *)
Definition variation (fuel : nat) (s : state) : outcome trials :=
  (* 2.1 Adaptation *)
  '(cr, f, g) <- sample_parameters fuel (memory_size cfg) (m_cr s) (m_f s)
                   (population_size s) (rng s) ;;
  let p := repeat 0.11%float (Z.to_nat (population_size s)) in
  (* 2.2 Common steps *)
  let '(mutated, g) :=
    current_to_pbest_mutation (population s) (fitness s) f p (bounds cfg) g in
  let '(crossed, g) := crossover (population s) mutated cr g in
  let c_fitness := apply_fitness crossed (func cfg) in
  '(population', indexes) <- selection (population s) crossed (fitness s) c_fitness ;;
  Ret (mkTrials cr f crossed c_fitness population' indexes g).

(** Lines 131 and 136-171, after [variation]. The telemetry callback of
    line 164 is taken to be absent ([callback is None]). *)
Definition update (s : state) (t : trials) : outcome state :=
  let num_evals' := num_evals s + population_size s in
  (* 2.3 Adapt for next generation *)
  '(archive', m_cr', m_f', k', g) <-
    adapt (memory_size cfg) (t_population t) (t_indexes t) (population_size s)
          (fitness s) (t_c_fitness t) (t_cr t) (t_f t)
          (archive s) (m_cr s) (m_f s) (k s) (t_rng t) ;;
  let fitness' := assign_at nan (fitness s) (t_c_fitness t) (t_indexes t) in
  (* Adapt population size *)
  '(population_size', population', fitness', k') <-
    shrink (init_size cfg) (max_evals cfg) num_evals' (population_size s)
           (t_population t) fitness' k' ;;
  (* Convergence monitor *)
  '(converge_countdown', best_fitness', fitness_history') <-
    monitor (precision cfg) fitness' (best_fitness s) (converge_countdown s)
            (fitness_history s) ;;
  Ret (mkState population' fitness' population_size' archive' m_cr' m_f' k'
               num_evals' best_fitness' converge_countdown' fitness_history'
               (current_generation s + 1) g).

(** The body of the [while] loop, lines 113-171. *)
Definition generation (fuel : nat) (s : state) : outcome state :=
  t <- variation fuel s ;; update s t.

(** The loop condition of line 112. *)
Definition loop_guard (s : state) : bool :=
  (num_evals s <? max_evals cfg) && (0 <? converge_countdown s).

(** The [while] loop of line 112: [gens] bounds the number of generations
    that are followed, [fuel] the resampling loop inside each. *)
Fixpoint run (gens fuel : nat) (s : state) : outcome state :=
  if loop_guard s then
    match gens with
    | O => Diverge
    | S gens' => s' <- generation fuel s ;; run gens' fuel s'
    end
  else Ret s.

(** [s'] is the state at the head of the loop some generations after the
    loop was at [s]. *)
Inductive reaches : state -> state -> Prop :=
| reaches_refl : forall s, reaches s s
| reaches_step : forall fuel s s1 s2,
    loop_guard s = true ->
    generation fuel s = Ret s1 ->
    reaches s1 s2 ->
    reaches s s2.

(** The archive and the population size are within the initial size. *)
Definition within_initial_size (s : state) : Prop :=
  Z.of_nat (length (archive s)) <= init_size cfg /\
  population_size s <= init_size cfg.

End Controller.

(* ===================================================================== *)
(** ** [get_default_params] and the set-up of [apply] *)
(* ===================================================================== *)

(** The entry ['max_evals_after_converge'] of [get_default_params(dim)]. *)
Definition default_max_evals_after_converge (dim : Z) : Z := 2 * dim.

(** The [bounds] argument: a NumPy array with its shape and its rows, or
    anything else. *)
Inductive bounds_arg : Type :=
| BoundsArray (shape : list Z) (rows : bounds_t)
| BoundsOther.

(** A positive [int]: the test
    [type(v) is not int or v <= 0] of lines 60, 63 and 66. *)
Definition check_positive_int (msg : string) (v : pyval) : outcome Z :=
  if (negb (type_is_int v) || (int_value v <=? 0))%bool
  then Raise (ValueError msg)
  else Ret (int_value v).

(** Line 69: [type(max_evals_after_converge) is not None] compares a type
    object with [None] and is always true, so the comparison with [0] is
    always evaluated. *)
Definition check_max_evals_after_converge (v : pyval) : outcome unit :=
  nonpos <- py_le_zero v ;;
  if nonpos
  then Raise (ValueError "max_evals_after_converge must be None or a positive integer.")
  else Ret tt.

(** Line 72. *)
Definition check_bounds (individual_size : Z) (b : bounds_arg) : outcome bounds_t :=
  match b with
  | BoundsArray [rows_n; cols_n] rows =>
      if ((rows_n =? individual_size) && (cols_n =? 2))%bool then Ret rows
      else Raise (ValueError "bounds must be a NumPy ndarray.")
  | _ => Raise (ValueError "bounds must be a NumPy ndarray.")
  end.

(** Lines 77-81: the seed is an [int], a NumPy unsigned scalar or [None];
    [np.random.seed] accepts only values that fit 32 bits. *)
Definition check_seed (seed : pyval) : outcome (option Z) :=
  match seed with
  | PyNone => Ret None
  | PyInt _ | PyBool _ | NpUInt32 _ | NpUInt64 _ =>
      let z := int_value seed in
      if ((z <? 0) || (2 ^ 32 <=? z))%bool
      then Raise (ValueError "Seed must be between 0 and 2**32 - 1")
      else Ret (Some z)
  | _ => Raise (ValueError "seed must be an integer or None.")
  end.

(** Lines 107-111: the initial countdown. *)
Definition initial_countdown (max_evals_after_converge : pyval) (individual_size : Z) : Z :=
  if isinstance_int max_evals_after_converge then
    match py_gt_zero max_evals_after_converge with
    | Ret true => int_value max_evals_after_converge
    | _ => default_max_evals_after_converge individual_size
    end
  else default_max_evals_after_converge individual_size.

(** Lines 97-103: the loop that counts [max_iters]. *)
Fixpoint count_max_iters (fuel : nat) (init_size max_evals i max_iters : Z) : outcome Z :=
  if i <? max_evals then
    match fuel with
    | O => Diverge
    | S fuel' =>
        n <- target_size init_size max_evals i ;;
        count_max_iters fuel' init_size max_evals (i + n) (max_iters + 1)
    end
  else Ret max_iters.

(** [np.ones(n) * 0.5]. *)
Definition np_ones_half (n : Z) : outcome (list float) :=
  if n <? 0 then Raise (ValueError "negative dimensions are not allowed")
  else Ret (repeat 0.5%float (Z.to_nat n)).

Section Apply.

Context {commons : Commons}.

(** Lines 59-111 of [apply]: parameter checks and initialisation, giving
    the constants and the state with which the loop is entered.
    [generators] gives the state of the generators after seeding. *)
Definition initialise (population_size individual_size : pyval) (bounds : bounds_arg)
    (func : individual -> float) (memory_size : Z) (precision : pyval)
    (max_evals_after_converge : pyval) (max_evals : pyval) (seed : pyval)
    (generators : option Z -> Rng) (fuel : nat) : outcome (config * state) :=
  (* 0. Check parameters are valid *)
  population_size <- check_positive_int "population_size must be a positive integer." population_size ;;
  individual_size <- check_positive_int "individual_size must be a positive integer." individual_size ;;
  max_evals <- check_positive_int "max_iter must be a positive integer." max_evals ;;
  _ <- check_max_evals_after_converge max_evals_after_converge ;;
  bounds <- check_bounds individual_size bounds ;;
  seed <- check_seed seed ;;
  let g := generators seed in
  (* 1. Initialization *)
  let '(population, g) := init_population population_size individual_size bounds g in
  let init_size := population_size in
  m_cr <- np_ones_half memory_size ;;
  m_f <- np_ones_half memory_size ;;
  let fitness := apply_fitness population func in
  _ <- count_max_iters fuel init_size max_evals 0 0 ;;
  best_fitness <- np_min fitness ;;
  let converge_countdown := initial_countdown max_evals_after_converge individual_size in
  Ret (mkConfig init_size individual_size max_evals memory_size precision bounds func,
       mkState population fitness population_size [] m_cr m_f O population_size
               best_fitness converge_countdown [] 0 g).

(** [apply]: the best individual, its fitness, and the history when
    [return_history] is set. *)
Definition apply (population_size individual_size : pyval) (bounds : bounds_arg)
    (func : individual -> float) (memory_size : Z) (precision : pyval)
    (max_evals_after_converge : pyval) (max_evals : pyval) (seed : pyval)
    (return_history : bool) (generators : option Z -> Rng) (gens fuel : nat)
  : outcome (individual * float * option (list float)) :=
  '(cfg, s) <- initialise population_size individual_size bounds func memory_size
                 precision max_evals_after_converge max_evals seed generators fuel ;;
  s <- run cfg gens fuel s ;;
  best <- np_argmin (fitness s) ;;
  Ret (nth best (population s) [], nth best (fitness s) nan,
       if return_history then Some (fitness_history s) else None).

End Apply.

(* ===================================================================== *)
(** ** [get_default_params] and the parameter checks on their own *)
(* ===================================================================== *)

(** The dictionary that [get_default_params(dim)] returns, one field per
    key. *)
Record default_params : Type := mkDefaults {
  dp_max_evals : pyval;
  dp_population_size : pyval;
  dp_individual_size : pyval;
  dp_memory_size : Z;
  dp_precision : pyval;
  dp_max_evals_after_converge : pyval;
  dp_callback : pyval;
  dp_seed : pyval;
  dp_opts : pyval;
  dp_return_history : bool
}.

(** Lines 8-18. *)
Definition get_default_params (dim : Z) : default_params :=
  mkDefaults (PyInt (10000 * dim)) (PyInt (18 * dim)) (PyInt dim) 6
             (PyFloat 1e-6) (PyInt (2 * dim)) PyNone PyNone PyNone false.

(** Lines 59-79 of [apply]: the checks, in the order in which the code
    makes them, giving the three sizes, the rows of [bounds] and the
    seed. *)
Definition check_parameters (population_size individual_size : pyval)
    (bounds : bounds_arg) (max_evals_after_converge max_evals seed : pyval)
  : outcome (Z * Z * Z * bounds_t * option Z) :=
  population_size <- check_positive_int "population_size must be a positive integer." population_size ;;
  individual_size <- check_positive_int "individual_size must be a positive integer." individual_size ;;
  max_evals <- check_positive_int "max_iter must be a positive integer." max_evals ;;
  _ <- check_max_evals_after_converge max_evals_after_converge ;;
  bounds <- check_bounds individual_size bounds ;;
  seed <- check_seed seed ;;
  Ret (population_size, individual_size, max_evals, bounds, seed).

(** Whether a computation ends with a value. *)
Definition returns_value {A : Type} (m : outcome A) : bool :=
  match m with Ret _ => true | _ => false end.

(** The memory arrays have [memory_size] slots and the cursor points at
    one of them. *)
Definition memory_ok (cfg : config) (s : state) : Prop :=
  length (m_cr s) = Z.to_nat (memory_size cfg) /\
  length (m_f s) = Z.to_nat (memory_size cfg) /\
  Z.of_nat (k s) < memory_size cfg.

(** In [fit] the entry at [j] does not sort strictly before the entry at
    [i]. *)
Definition not_after (fit : list float) (i j : nat) : Prop :=
  sorts_before (nth j fit nan) (nth i fit nan) = false.

(** The fitness array holds the objective values of the population,
    position by position. *)
Definition aligned (cfg : config) (s : state) : Prop :=
  fitness s = apply_fitness (population s) (func cfg).

(** The variable [population_size] is the length of the population. *)
Definition sized (s : state) : Prop :=
  Z.of_nat (length (population s)) = population_size s.



(* ===================================================================== *)
(** ** Stand-in collaborators and scripted generators for concrete runs *)
(* ===================================================================== *)

Module Scenario.

(** A tape that yields the entries of [l] and then [d] for ever. *)
Definition tape {A : Type} (d : A) (l : list A) : nat -> A := fun n => nth n l d.

(** Generators whose NumPy reals are [reals] followed by zeros and whose
    integer draws are all zero. *)
Definition scripted (reals : list float) : option Z -> Rng :=
  fun _ => mkRng (tape 0%nat []) (tape 0%float reals) (tape 0%nat []) 0 0 0.

(** [vals] cut into consecutive rows of the lengths of the rows of [shape]. *)
Fixpoint split_like {A : Type} (shape : list (list A)) (vals : list float) : list (list float) :=
  match shape with
  | [] => []
  | row :: rest =>
      firstn (length row) vals :: split_like rest (skipn (length row) vals)
  end.

Definition keep_bounds (b : bounds_t) (x : individual) : individual :=
  map (fun xb => np_clip (fst (snd xb)) (snd (snd xb)) (fst xb)) (combine x b).

(** Stand-in initialiser: the coordinates are read off the generator. *)
Definition demo_init (size dim : Z) (b : bounds_t) (g : Rng) : list individual * Rng :=
  let shape := repeat (repeat tt (Z.to_nat dim)) (Z.to_nat size) in
  let '(vals, g') := next_reals (Z.to_nat size * Z.to_nat dim) g in
  (map (keep_bounds b) (split_like shape vals), g').

(** Stand-in mutation: individual [i] moves by [F[i]] times a difference
    vector read off the generator, and is clipped to the bounds. *)
Definition demo_mutation (population : list individual) (fitness f p : list float)
    (b : bounds_t) (g : Rng) : list individual * Rng :=
  let '(vals, g') := next_reals (length (concat population)) g in
  let diffs := split_like population vals in
  (map (fun xfd =>
          let '(x, fi, d) := xfd in
          keep_bounds b (map (fun xd => (fst xd + fi * snd xd)%float) (combine x d)))
       (combine (combine population f) diffs), g').

(** Stand-in crossover: the mutant itself, which is what binomial
    crossover yields for one-dimensional individuals. *)
Definition demo_crossover (population mutated : list individual) (cr : list float)
    (g : Rng) : list individual * Rng :=
  (mutated, g).

#[export] Instance demo_commons : Commons := {
  init_population := demo_init;
  current_to_pbest_mutation := demo_mutation;
  crossover := demo_crossover
}.

(** The separable quadratic [f(x) = sum x_i^2]. *)
Definition sphere (x : individual) : float :=
  fold_left (fun acc xi => (acc + xi * xi)%float) x 0%float.

(** The flat objective [f(x) = 0]. *)
Definition flat (x : individual) : float := 0%float.

Definition wide : bounds_arg := BoundsArray [1; 2] [((-100)%float, 100%float)].
Definition wide_rows : bounds_t := [((-100)%float, 100%float)].

Definition half (n : nat) : list float := repeat 0.5%float n.

(** The generator [scripted reals] after [n] of its reals were read. *)
Definition reading (reals : list float) (n : nat) : Rng :=
  mkRng (tape 0%nat []) (tape 0%float reals) (tape 0%nat []) 0 n 0.

Local Open Scope float_scope.

(** Scenario A: five individuals on the sphere, budget 12; in the first
    generation every trial improves on its parent. *)
Definition reals_A : list float :=
  [5; 6; 7; 8; 9] ++ repeat 0 10 ++ repeat (-1) 5.
Definition cfg_A : config :=
  mkConfig 5 1 12 6 (PyFloat 1e-6) wide_rows sphere.
Definition start_A : state :=
  mkState [[5]; [6]; [7]; [8]; [9]] [25; 36; 49; 64; 81] 5 [] (half 6) (half 6)
          0 5 25 10 [] 0 (reading reals_A 5).

(** Scenario B: five individuals, budget 64, memory of six slots; five
    generations in which every trial improves, then one in which none
    does. *)
Definition reals_B : list float :=
  [5; 6; 7; 8; 9] ++ concat (repeat (repeat 0 10 ++ repeat (-1) 5) 5)
  ++ repeat 0 10 ++ repeat 1 5.
Definition cfg_B : config :=
  mkConfig 5 1 64 6 (PyFloat 1e-6) wide_rows sphere.
Definition start_B : state :=
  mkState [[5]; [6]; [7]; [8]; [9]] [25; 36; 49; 64; 81] 5 [] (half 6) (half 6)
          0 5 25 10 [] 0 (reading reals_B 5).

(** Scenario D: four individuals; the Cauchy variate of individual 1 is
    [-10] (so F = -0.5 is redrawn) and the redraw is [12]; only
    individual 1 improves. *)
Definition reals_D : list float :=
  [5; 6; 7; 8] ++ repeat 0 4 ++ [0; -10; 0; 0] ++ [12] ++ [1; -1; 1; 1].
Definition cfg_D : config :=
  mkConfig 4 1 100 6 (PyFloat 1e-6) wide_rows sphere.
Definition start_D : state :=
  mkState [[5]; [6]; [7]; [8]] [25; 36; 49; 64] 4 [] (half 6) (half 6)
          0 4 25 10 [] 0 (reading reals_D 4).

(** Scenario E: four individuals on the flat objective; every trial ties
    with its parent. *)
Definition reals_E : list float := [1; 2; 3; 4].
Definition cfg_E : config :=
  mkConfig 4 1 100 6 (PyFloat 1e-6) wide_rows flat.
Definition start_E : state :=
  mkState [[1]; [2]; [3]; [4]] [0; 0; 0; 0] 4 [] (half 6) (half 6)
          0 4 0 10 [] 0 (reading reals_E 4).

(** Scenario F: ten individuals, budget 15; no trial improves. *)
Definition reals_F : list float :=
  [1; 2; 3; 4; 5; 6; 7; 8; 9; 10] ++ repeat 0 20 ++ repeat 1 10.
Definition cfg_F : config :=
  mkConfig 10 1 15 6 (PyFloat 1e-6) wide_rows sphere.
Definition start_F : state :=
  mkState [[1]; [2]; [3]; [4]; [5]; [6]; [7]; [8]; [9]; [10]]
          [1; 4; 9; 16; 25; 36; 49; 64; 81; 100] 10 [] (half 6) (half 6)
          0 10 1 10 [] 0 (reading reals_F 10).

(** Scenario H: the ten individuals of scenario F with budget 11. *)
Definition cfg_H : config :=
  mkConfig 10 1 11 6 (PyFloat 1e-6) wide_rows sphere.

(** Scenario G: five individuals, budget 12, countdown 1; no trial ever
    improves. The precision is a parameter. *)
Definition reals_G : list float :=
  [5; 6; 7; 8; 9] ++ repeat 0 10 ++ repeat 1 5 ++ repeat 0 8 ++ repeat 1 4.
Definition cfg_G (precision : pyval) : config :=
  mkConfig 5 1 12 6 precision wide_rows sphere.
Definition start_G : state :=
  mkState [[5]; [6]; [7]; [8]; [9]] [25; 36; 49; 64; 81] 5 [] (half 6) (half 6)
          0 5 25 1 [] 0 (reading reals_G 5).

(** A generator whose first [n] Cauchy variates are [-10] (giving
    [F = -0.5] from a memory entry [0.5]) and whose later ones are [0]
    (giving [F = 0.5]); [q] integers and [p] reals have been read. *)
Definition stubborn (n q p : nat) : Rng :=
  mkRng (fun _ => 0%nat)
        (fun i => if (i <? n)%nat then (-10)%float else 0%float)
        (fun _ => 0%nat) q p 0.

(** A generator all of whose Cauchy variates are [-10]. *)
Definition hopeless (q p : nat) : Rng :=
  mkRng (fun _ => 0%nat) (fun _ => (-10)%float) (fun _ => 0%nat) q p 0.

(** [s] with another countdown. *)
Definition with_countdown (s : state) (c : Z) : state :=
  mkState (population s) (fitness s) (population_size s) (archive s) (m_cr s)
          (m_f s) (k s) (num_evals s) (best_fitness s) c (fitness_history s)
          (current_generation s) (rng s).

End Scenario.

(* ===================================================================== *)
(** * Properties *)
(* ===================================================================== *)

(** ** Reading a successful computation backwards *)

Lemma bind_Ret {A B : Type} (m : outcome A) (f : A -> outcome B) (b : B) :
  bind m f = Ret b -> exists a, m = Ret a /\ f a = Ret b.
Proof.
  destruct m as [a| |]; simpl; intros H; try discriminate.
  exists a; split; [reflexivity | exact H].
Qed.

(** [ret_inv H as x E]: from [H : (x <- m ;; k) = Ret b], the value [x]
    of [m], the equation [E : m = Ret x], and [H : k = Ret b]. *)
Tactic Notation "ret_inv" ident(H) "as" simple_intropattern(x) simple_intropattern(E) :=
  apply bind_Ret in H; destruct H as (x & E & H).

Section ControllerFacts.

Context {commons : Commons}.
Variable cfg : config.

Lemma generation_inv (fuel : nat) (s s' : state) :
  generation cfg fuel s = Ret s' ->
  exists t, variation cfg fuel s = Ret t /\ update cfg s t = Ret s'.
Proof.
  unfold generation; intros H.
  apply bind_Ret in H. exact H.
Qed.

Lemma update_inv (s s' : state) (t : trials) :
  update cfg s t = Ret s' ->
  exists archive' m_cr' m_f' k1 g psz pop fit k2 cd bf fh,
    adapt (memory_size cfg) (t_population t) (t_indexes t) (population_size s)
          (fitness s) (t_c_fitness t) (t_cr t) (t_f t)
          (archive s) (m_cr s) (m_f s) (k s) (t_rng t)
      = Ret (archive', m_cr', m_f', k1, g) /\
    shrink (init_size cfg) (max_evals cfg) (num_evals s + population_size s)
           (population_size s) (t_population t)
           (assign_at nan (fitness s) (t_c_fitness t) (t_indexes t)) k1
      = Ret (psz, pop, fit, k2) /\
    monitor (precision cfg) fit (best_fitness s) (converge_countdown s)
            (fitness_history s) = Ret (cd, bf, fh) /\
    s' = mkState pop fit psz archive' m_cr' m_f' k2
                 (num_evals s + population_size s) bf cd fh
                 (current_generation s + 1) g.
Proof.
  unfold update; intros H.
  ret_inv H as [[[[a1 a2] a3] a4] a5] E1.
  ret_inv H as [[[b1 b2] b3] b4] E2.
  ret_inv H as [[c1 c2] c3] E3.
  injection H as <-.
  exists a1, a2, a3, a4, a5, b1, b2, b3, b4, c1, c2, c3.
  repeat split; assumption.
Qed.

End ControllerFacts.

(** ** The phases of a generation, one by one *)

Lemma monitor_inv (precision : pyval) (fit : list float) (best : float)
    (cd0 : Z) (fh0 : list float) (cd : Z) (bf : float) (fh : list float) :
  monitor precision fit best cd0 fh0 = Ret (cd, bf, fh) ->
  exists m,
    np_min fit = Ret m /\
    cd = (if (isinstance_float precision
              && (abs (m - best) <? float_value precision)%float)%bool
          then cd0 - 1 else cd0) /\
    bf = (if (m <? best)%float then m else best) /\
    fh = fh0 ++ [m].
Proof.
  unfold monitor, stagnated; intros H.
  destruct (np_min fit) as [m| |] eqn:Em.
  - exists m; split; [reflexivity|].
    destruct (isinstance_float precision); simpl in H; injection H as <- <- <-;
      repeat split; reflexivity.
  - destruct (isinstance_float precision); simpl in H; discriminate.
  - destruct (isinstance_float precision); simpl in H; discriminate.
Qed.

Lemma shrink_inv (init max n psz : Z) (pop : list individual) (fit : list float) (k : nat)
    (psz' : Z) (pop' : list individual) (fit' : list float) (k' : nat) :
  shrink init max n psz pop fit k = Ret (psz', pop', fit', k') ->
  exists target,
    target_size init max n = Ret target /\
    psz' = Z.min psz target /\
    ((target < psz /\ k' = (if Z.of_nat k =? init then O else k))
     \/ (psz <= target /\ pop' = pop /\ fit' = fit /\ k' = k)).
Proof.
  unfold shrink; intros H.
  ret_inv H as target Et.
  exists target; split; [exact Et|].
  destruct (target <? psz) eqn:Elt.
  - apply Z.ltb_lt in Elt. injection H as <- <- <- <-.
    split; [lia | left; split; [exact Elt | reflexivity]].
  - apply Z.ltb_ge in Elt. injection H as <- <- <- <-.
    split; [lia | right; repeat split; try reflexivity; exact Elt].
Qed.

Lemma sample_from_length {A : Type} (n : nat) (pool : list A) (g : Rng) :
  length (fst (sample_from n pool g)) = Nat.min n (length pool).
Proof.
  revert pool g; induction n as [|n IH]; intros pool g; simpl.
  - reflexivity.
  - destruct pool as [|x pool]; [reflexivity|].
    set (j := (py_ints g (py_pos g) mod length (x :: pool))%nat).
    assert (Hj : (j < length (x :: pool))%nat)
      by (apply Nat.mod_upper_bound; simpl; discriminate).
    match goal with
    | |- context [sample_from n ?l ?g'] =>
        specialize (IH l g'); destruct (sample_from n l g') as [rest g2] eqn:E
    end.
    simpl in *. rewrite IH.
    rewrite length_app, length_firstn, length_skipn.
    simpl in Hj |- *. lia.
Qed.

Lemma random_sample_length {A : Type} (pool : list A) (n : Z) (g : Rng)
    (out : list A) (g' : Rng) :
  random_sample pool n g = Ret (out, g') -> Z.of_nat (length out) = n.
Proof.
  unfold random_sample; intros H.
  destruct ((n <? 0) || (Z.of_nat (length pool) <? n))%bool eqn:E; [discriminate|].
  apply orb_false_iff in E; destruct E as [E1 E2].
  apply Z.ltb_ge in E1, E2.
  injection H as H. apply (f_equal fst) in H; simpl in H.
  rewrite <- H, sample_from_length. lia.
Qed.

Lemma take_indexes_nil {A : Type} (d : A) (xs : list A) : take_indexes d xs [] = [].
Proof. reflexivity. Qed.

(** With an empty success set lines 136-150 change nothing. *)
Lemma adapt_no_success (ms : Z) (pop : list individual) (psz : Z)
    (fit cfit cr f : list float) (arch : list individual) (mcr mf : list float)
    (k : nat) (g : Rng) :
  adapt ms pop [] psz fit cfit cr f arch mcr mf k g = Ret (arch, mcr, mf, k, g).
Proof.
  unfold adapt; simpl. rewrite app_nil_r. reflexivity.
Qed.

(** After lines 136-140 the archive is either untouched or within the
    capacity [population_size]. *)
Lemma adapt_archive (ms : Z) (pop : list individual) (idx : list nat) (psz : Z)
    (fit cfit cr f : list float) (arch : list individual) (mcr mf : list float)
    (k : nat) (g : Rng) (arch' : list individual) (mcr' mf' : list float)
    (k' : nat) (g' : Rng) :
  adapt ms pop idx psz fit cfit cr f arch mcr mf k g = Ret (arch', mcr', mf', k', g') ->
  (idx = [] /\ arch' = arch) \/ (idx <> [] /\ Z.of_nat (length arch') <= psz).
Proof.
  destruct idx as [|i idx].
  - rewrite adapt_no_success. intros H; injection H as <- _ _ _ _.
    left; split; reflexivity.
  - unfold adapt. cbn [length Nat.ltb Nat.leb].
    intros H. right; split; [discriminate|].
    ret_inv H as [a ga] E1.
    ret_inv H as [[x1 x2] x3] E2.
    injection H as <- _ _ _ _.
    destruct (psz <? Z.of_nat (length (arch ++ take_indexes [] pop (i :: idx)))) eqn:E.
    + apply random_sample_length in E1. lia.
    + apply Z.ltb_ge in E. injection E1 as <- _. exact E.
Qed.

(** ** Selection hands back the trials at the success positions *)

Lemma success_indexes_spec (fit cfit : list float) (i : nat) :
  In i (success_indexes fit cfit) <->
  (i < length fit)%nat /\ (nth i cfit nan <=? nth i fit nan)%float = true.
Proof.
  unfold success_indexes. rewrite filter_In, in_seq.
  split; intros [H1 H2]; split; try assumption; lia.
Qed.

Lemma replace_at_nth (pop crossed : list individual) (fit cfit : list float) (i : nat) :
  length crossed = length pop -> length fit = length pop -> length cfit = length pop ->
  (i < length pop)%nat ->
  nth i (replace_at pop crossed fit cfit) [] =
  if (nth i cfit nan <=? nth i fit nan)%float then nth i crossed [] else nth i pop [].
Proof.
  revert crossed fit cfit i.
  induction pop as [|x xs IH]; intros crossed fit cfit i Hc Hf Hcf Hi.
  - simpl in Hi; lia.
  - destruct crossed as [|u us]; [discriminate|].
    destruct fit as [|fx fxs]; [discriminate|].
    destruct cfit as [|fu fus]; [discriminate|].
    destruct i as [|j].
    + simpl. destruct (fu <=? fx)%float; reflexivity.
    + simpl in Hc, Hf, Hcf, Hi. cbn [replace_at nth].
      apply IH; lia.
Qed.

Lemma selection_inv (pop crossed : list individual) (fit cfit : list float)
    (pop' : list individual) (idx : list nat) :
  selection pop crossed fit cfit = Ret (pop', idx) ->
  length crossed = length pop /\ length fit = length pop /\ length cfit = length pop /\
  pop' = replace_at pop crossed fit cfit /\ idx = success_indexes fit cfit.
Proof.
  unfold selection; intros H.
  destruct (Nat.eqb (length crossed) (length pop)) eqn:E1; [|discriminate].
  destruct (Nat.eqb (length fit) (length pop)) eqn:E2; [|discriminate].
  destruct (Nat.eqb (length cfit) (length pop)) eqn:E3; [|discriminate].
  apply Nat.eqb_eq in E1, E2, E3. simpl in H. injection H as <- <-.
  repeat split; assumption.
Qed.

Section RunFacts.

Context {commons : Commons}.
Variable cfg : config.

(** At every success position the population returned by [selection]
    and bound to [population] on line 132 holds the trial vector. *)
Lemma variation_success_is_trial (fuel : nat) (s : state) (t : trials) (i : nat) :
  variation cfg fuel s = Ret t ->
  In i (t_indexes t) ->
  nth i (t_population t) [] = nth i (t_crossed t) [].
Proof.
  unfold variation; intros H Hi.
  ret_inv H as [[cr f] g] _.
  destruct (current_to_pbest_mutation _ _ _ _ _ _) as [mutated g2].
  destruct (crossover _ _ _ _) as [crossed g3].
  ret_inv H as [pop' idx] Es.
  injection H as <-. simpl in Hi |- *.
  apply selection_inv in Es; destruct Es as (Hc & Hf & Hcf & -> & ->).
  apply success_indexes_spec in Hi; destruct Hi as [Hlt Hle].
  rewrite replace_at_nth by (try assumption; lia).
  rewrite Hle. reflexivity.
Qed.

(** One generation: the countdown moves as line 166 says, by at most one
    and never upwards; the population size is the smaller of its old
    value and the schedule's target. *)
Lemma generation_step (fuel : nat) (s s' : state) :
  generation cfg fuel s = Ret s' ->
  (exists m,
      np_min (fitness s') = Ret m /\
      converge_countdown s' =
        (if (isinstance_float (precision cfg)
             && (abs (m - best_fitness s) <? float_value (precision cfg))%float)%bool
         then converge_countdown s - 1 else converge_countdown s) /\
      best_fitness s' = (if (m <? best_fitness s)%float then m else best_fitness s)) /\
  num_evals s' = num_evals s + population_size s /\
  (exists target,
      target_size (init_size cfg) (max_evals cfg) (num_evals s') = Ret target /\
      population_size s' = Z.min (population_size s) target).
Proof.
  intros H. apply generation_inv in H; destruct H as (t & _ & H).
  apply update_inv in H.
  destruct H as (a' & mcr' & mf' & k1 & g & psz & pop & fit & k2 & cd & bf & fh
                 & _ & Es & Em & ->).
  simpl.
  apply monitor_inv in Em; destruct Em as (m & Emin & -> & -> & _).
  apply shrink_inv in Es; destruct Es as (target & Et & -> & _).
  split; [exists m; repeat split; assumption|].
  split; [reflexivity|].
  exists target; split; [exact Et | reflexivity].
Qed.

Lemma generation_countdown (fuel : nat) (s s' : state) :
  generation cfg fuel s = Ret s' ->
  converge_countdown s - 1 <= converge_countdown s' <= converge_countdown s.
Proof.
  intros H. apply generation_step in H.
  destruct H as ((m & _ & -> & _) & _).
  destruct (_ && _)%bool; lia.
Qed.

Lemma generation_population_size (fuel : nat) (s s' : state) :
  generation cfg fuel s = Ret s' -> population_size s' <= population_size s.
Proof.
  intros H. apply generation_step in H.
  destruct H as (_ & _ & target & _ & ->). lia.
Qed.

Lemma reaches_countdown (s s' : state) :
  reaches cfg s s' -> converge_countdown s' <= converge_countdown s.
Proof.
  induction 1 as [s|fuel s s1 s2 _ Hg _ IH]; [lia|].
  apply generation_countdown in Hg. lia.
Qed.

Lemma reaches_population_size (s s' : state) :
  reaches cfg s s' -> population_size s' <= population_size s.
Proof.
  induction 1 as [s|fuel s s1 s2 _ Hg _ IH]; [lia|].
  apply generation_population_size in Hg. lia.
Qed.

(** The loop is left at once when its condition fails. *)
Lemma run_exit (gens fuel : nat) (s : state) :
  loop_guard cfg s = false -> run cfg gens fuel s = Ret s.
Proof.
  intros H. destruct gens; simpl; rewrite H; reflexivity.
Qed.

(** A run that returns went through generations, and left the loop
    because its condition failed. *)
Lemma run_reaches (gens fuel : nat) (s s' : state) :
  run cfg gens fuel s = Ret s' -> reaches cfg s s' /\ loop_guard cfg s' = false.
Proof.
  revert s; induction gens as [|gens IH]; intros s H; simpl in H.
  - destruct (loop_guard cfg s) eqn:G; [discriminate|].
    injection H as <-. split; [constructor | exact G].
  - destruct (loop_guard cfg s) eqn:G.
    + ret_inv H as s1 Hg.
      apply IH in H; destruct H as [Hr Hq].
      split; [econstructor; eassumption | exact Hq].
    + injection H as <-. split; [constructor | exact G].
Qed.

End RunFacts.

(** ** The state in which the loop is entered *)

Lemma check_positive_int_inv (msg : string) (v : pyval) (z : Z) :
  check_positive_int msg v = Ret z -> v = PyInt z /\ 0 < z.
Proof.
  unfold check_positive_int.
  destruct v as [ |b|n|x|y|u|w|str]; simpl; try discriminate.
  destruct (n <=? 0) eqn:E; [discriminate|].
  intros H; injection H as <-. apply Z.leb_gt in E. split; [reflexivity | exact E].
Qed.

Lemma initial_countdown_positive (v : pyval) (dim : Z) :
  0 < dim -> 0 < initial_countdown v dim.
Proof.
  intros Hdim. unfold initial_countdown, default_max_evals_after_converge.
  destruct v as [ |b|z|x|y|n|m|str];
    cbn [isinstance_int py_gt_zero int_value]; try lia.
  - destruct b; lia.
  - destruct (0 <? z) eqn:E; [apply Z.ltb_lt in E; exact E | lia].
Qed.

(** The state in which [apply] enters the loop. *)
Lemma initialise_start {commons : Commons}
    (psize isize : pyval) (bnds : bounds_arg) (f : individual -> float)
    (msize : Z) (prec mec mevals seed : pyval)
    (generators : option Z -> Rng) (fuel : nat) (c : config) (s : state) :
  initialise psize isize bnds f msize prec mec mevals seed generators fuel
  = Ret (c, s) ->
  archive s = [] /\
  k s = O /\
  population_size s = init_size c /\
  num_evals s = init_size c /\
  0 < init_size c /\
  0 < max_evals c /\
  0 < converge_countdown s /\
  precision c = prec.
Proof.
  unfold initialise; intros H.
  ret_inv H as psz E1.
  ret_inv H as isz E2.
  ret_inv H as mev E3.
  ret_inv H as u _.
  ret_inv H as b _.
  ret_inv H as sd _.
  destruct (init_population psz isz b (generators sd)) as [pop g].
  ret_inv H as mcr _.
  ret_inv H as mf _.
  ret_inv H as mi _.
  ret_inv H as bf _.
  injection H as <- <-. simpl.
  apply check_positive_int_inv in E1, E2, E3.
  destruct E1 as [_ E1], E2 as [_ E2], E3 as [_ E3].
  repeat split; try reflexivity; try assumption.
  apply initial_countdown_positive; exact E2.
Qed.

Import Scenario.

(** ** The scenarios start where [apply] starts *)

Example initialise_A :
  initialise (PyInt 5) (PyInt 1) wide sphere 6 (PyFloat 1e-6) (PyInt 10)
             (PyInt 12) (PyInt 1) (scripted reals_A) 100
  = Ret (cfg_A, start_A).
Proof. vm_compute; reflexivity. Qed.

Example initialise_B :
  initialise (PyInt 5) (PyInt 1) wide sphere 6 (PyFloat 1e-6) (PyInt 10)
             (PyInt 64) (PyInt 1) (scripted reals_B) 100
  = Ret (cfg_B, start_B).
Proof. vm_compute; reflexivity. Qed.

Example initialise_D :
  initialise (PyInt 4) (PyInt 1) wide sphere 6 (PyFloat 1e-6) (PyInt 10)
             (PyInt 100) (PyInt 1) (scripted reals_D) 100
  = Ret (cfg_D, start_D).
Proof. vm_compute; reflexivity. Qed.

Example initialise_E :
  initialise (PyInt 4) (PyInt 1) wide flat 6 (PyFloat 1e-6) (PyInt 10)
             (PyInt 100) (PyInt 1) (scripted reals_E) 100
  = Ret (cfg_E, start_E).
Proof. vm_compute; reflexivity. Qed.

Example initialise_F :
  initialise (PyInt 10) (PyInt 1) wide sphere 6 (PyFloat 1e-6) (PyInt 10)
             (PyInt 15) (PyInt 1) (scripted reals_F) 100
  = Ret (cfg_F, start_F).
Proof. vm_compute; reflexivity. Qed.

Example initialise_G (precision : pyval) :
  initialise (PyInt 5) (PyInt 1) wide sphere 6 precision (PyInt 1)
             (PyInt 12) (PyInt 1) (scripted reals_G) 100
  = Ret (cfg_G precision, start_G).
Proof. vm_compute; reflexivity. Qed.

(** Scenario G all the way through [apply]: the stagnation stop ends the
    run after one generation. *)
Example apply_G :
  apply (PyInt 5) (PyInt 1) wide sphere 6 (PyFloat 1e-6) (PyInt 1)
        (PyInt 12) (PyInt 1) true (scripted reals_G) 5 100
  = Ret ([5%float], 25%float, Some [25%float]).
Proof. vm_compute; reflexivity. Qed.

(** ** The resampling loop *)

(** When the loop of line 121 exits, no entry of [f] is [<= 0]. *)
Lemma resample_f_valid (fuel : nat) (ms : Z) (mf f : list float) (g : Rng)
    (f' : list float) (g' : Rng) :
  resample_f fuel ms mf f g = Ret (f', g') -> count_invalid f' = 0%nat.
Proof.
  revert f g; induction fuel as [|fuel IH]; intros f g H; simpl in H.
  - destruct (Nat.eqb (count_invalid f) 0) eqn:E; [|discriminate].
    injection H as <- _. apply Nat.eqb_eq; exact E.
  - destruct (Nat.eqb (count_invalid f) 0) eqn:E.
    + injection H as <- _. apply Nat.eqb_eq; exact E.
    + ret_inv H as [r g1] _.
      destruct (cauchy_rvs (take_indexes nan mf r) 0.1 g1) as [fresh g2] eqn:Ec.
      eapply IH; exact H.
Qed.

(** The loop of line 121 has no failure exit: with a non-empty memory it
    returns or keeps running. *)
Lemma resample_f_never_raises (fuel : nat) (ms : Z) (mf f : list float) (g : Rng)
    (e : exn) :
  0 < ms -> resample_f fuel ms mf f g <> Raise e.
Proof.
  intros Hms.
  revert f g; induction fuel as [|fuel IH]; intros f g; simpl.
  - destruct (Nat.eqb (count_invalid f) 0); discriminate.
  - destruct (Nat.eqb (count_invalid f) 0); [discriminate|].
    unfold np_random_choice.
    destruct (Z.of_nat (count_invalid f) <? 0) eqn:E1;
      [apply Z.ltb_lt in E1; lia|].
    assert (E2 : Nat.eqb (length (all_indexes ms)) 0 = false).
    { unfold all_indexes. rewrite length_seq. apply Nat.eqb_neq. lia. }
    rewrite E2. cbn [andb bind].
    apply IH.
Qed.

(** The F values of [sample_f] hold no entry [<= 0]. *)
Lemma sample_f_valid (fuel : nat) (ms : Z) (mf : list float) (r : list nat)
    (g : Rng) (f : list float) (g' : Rng) :
  sample_f fuel ms mf r g = Ret (f, g') ->
  forallb (fun x => negb (x <=? 0)%float) f = true.
Proof.
  unfold sample_f; intros H.
  apply resample_f_valid in H.
  unfold count_invalid in H.
  induction f as [|x f IH]; [reflexivity|].
  simpl in H |- *.
  destruct (x <=? 0)%float; [discriminate|].
  simpl. apply IH. exact H.
Qed.

(** One pass of the loop over a single invalid entry: one index draw, one
    Cauchy draw, and the entry is replaced. *)
Lemma resample_f_pass (fuel : nat) (mf : list float) (x : float) (g : Rng) :
  (x <=? 0)%float = true ->
  resample_f (S fuel) 6 mf [x] g =
  resample_f fuel 6 mf
    [(np_reals g (np_rpos g) * 0.1 + nth (np_ints g (np_ipos g) mod 6) mf nan)%float]
    (mkRng (np_ints g) (np_reals g) (py_ints g)
           (np_ipos g + 1) (np_rpos g + 1) (py_pos g)).
Proof.
  intros Hx.
  cbn [resample_f]. unfold count_invalid. cbn [filter]. rewrite Hx.
  cbn [length Nat.eqb].
  unfold np_random_choice, all_indexes.
  change (Z.of_nat 1 <? 0) with false.
  change (Nat.eqb (length (seq 0 (Z.to_nat 6))) 0 && (0 <? Z.of_nat 1))%bool with false.
  cbv iota.
  change (Z.to_nat (Z.of_nat 1)) with 1%nat.
  unfold next_ints. cbn [seq map bind].
  unfold cauchy_rvs, take_indexes, next_reals.
  cbn [map length seq combine fst snd refill np_ints np_reals py_ints np_ipos np_rpos py_pos].
  rewrite Hx.
  rewrite !Nat.add_0_r.
  change (length (seq 0 (Z.to_nat 6))) with 6%nat.
  rewrite seq_nth by (apply Nat.mod_upper_bound; discriminate).
  reflexivity.
Qed.

Lemma stubborn_diverges (n fuel q p : nat) :
  (p + fuel <= n)%nat ->
  resample_f fuel 6 (half 6) [(-0.5)%float] (stubborn n q p) = Diverge.
Proof.
  revert q p; induction fuel as [|fuel IH]; intros q p Hle.
  - reflexivity.
  - rewrite resample_f_pass by reflexivity.
    cbn [stubborn np_reals np_ints np_ipos np_rpos py_ints py_pos].
    assert (E : (p <? n)%nat = true) by (apply Nat.ltb_lt; lia).
    rewrite E.
    change ((-10) * 0.1 + nth (0 mod 6) (half 6) nan)%float with (-0.5)%float.
    apply (IH (q + 1)%nat (p + 1)%nat). lia.
Qed.

Lemma stubborn_returns (n fuel q p : nat) :
  (p + fuel = n)%nat ->
  resample_f (S fuel) 6 (half 6) [(-0.5)%float] (stubborn n q p)
  = Ret ([0.5%float], stubborn n (q + fuel + 1) (n + 1)).
Proof.
  revert q p; induction fuel as [|fuel IH]; intros q p Hle.
  - rewrite resample_f_pass by reflexivity.
    cbn [stubborn np_reals np_ints np_ipos np_rpos py_ints py_pos].
    assert (E : (p <? n)%nat = false) by (apply Nat.ltb_ge; lia).
    rewrite E.
    change (0 * 0.1 + nth (0 mod 6) (half 6) nan)%float with (0.5)%float.
    cbn [resample_f]. unfold stubborn.
    replace (p + 1)%nat with (n + 1)%nat by lia.
    rewrite Nat.add_0_r. reflexivity.
  - rewrite resample_f_pass by reflexivity.
    cbn [stubborn np_reals np_ints np_ipos np_rpos py_ints py_pos].
    assert (E : (p <? n)%nat = true) by (apply Nat.ltb_lt; lia).
    rewrite E.
    change ((-10) * 0.1 + nth (0 mod 6) (half 6) nan)%float with (-0.5)%float.
    etransitivity; [apply (IH (q + 1)%nat (p + 1)%nat); lia|].
    replace (q + 1 + fuel + 1)%nat with (q + S fuel + 1)%nat by lia.
    reflexivity.
Qed.

Lemma hopeless_diverges (fuel q p : nat) :
  resample_f fuel 6 (half 6) [(-0.5)%float] (hopeless q p) = Diverge.
Proof.
  revert q p; induction fuel as [|fuel IH]; intros q p.
  - reflexivity.
  - rewrite resample_f_pass by reflexivity.
    cbn [hopeless np_reals np_ints np_ipos np_rpos py_ints py_pos].
    change ((-10) * 0.1 + nth (0 mod 6) (half 6) nan)%float with (-0.5)%float.
    apply (IH (q + 1)%nat (p + 1)%nat).
Qed.

(** ** C1: the F values handed to the mutation *)

(** C1 (the code breaks it). The claim: every F[i] passed to the mutation
    operator lies in (0, 1]. In scenario D the first Cauchy draw of
    individual 1 is -0.5; the loop of line 121 redraws it as
    12 * 0.1 + 0.5 = 1.7, which is not [<= 0], so the loop exits and the
    mutation receives F[1] = 1.7 > 1: line 119 discards values above 1
    only for the first draw, not for the redraws of line 123. *)
Theorem resampled_F_exceeds_one :
  exists t,
    variation cfg_D 10 start_D = Ret t /\
    t_f t = [0.5; 1.7000000000000002; 0.5; 0.5]%float /\
    existsb (fun x => (1 <? x)%float) (t_f t) = true /\
    t_crossed t = [[5.5]; [4.2999999999999998]; [7.5]; [8.5]]%float.
Proof.
  eexists. split; [vm_compute; reflexivity|].
  repeat split; vm_compute; reflexivity.
Qed.

(** ** C2: the memory after an update *)

(** C2 (the code breaks it). The claim: after every memory update every
    entry of CR-mem and F-mem lies in [0, 1], and the Lehmer-mean update
    leaves no NaN. First part: on the flat objective (scenario E) every
    trial ties with its parent, all weights are 0, line 143 divides 0 by
    0, and line 147 stores the resulting NaN in F-mem[0]; only CR-mem has
    the guard of line 145. Second part: in scenario D the only success
    carries F = 1.7 (see C1), and line 147 stores 1.7 in F-mem[0]. *)
Theorem memory_update_leaves_unit_interval :
  (exists s',
      generation cfg_E 10 start_E = Ret s' /\
      m_cr s' = [1; 0.5; 0.5; 0.5; 0.5; 0.5]%float /\
      is_nan (nth 0 (m_f s') 0%float) = true) /\
  (exists s',
      generation cfg_D 10 start_D = Ret s' /\
      m_f s' = [1.7000000000000002; 0.5; 0.5; 0.5; 0.5; 0.5]%float /\
      (1 <? nth 0 (m_f s') 0)%float = true).
Proof.
  split; eexists; (split; [vm_compute; reflexivity|]);
    split; vm_compute; reflexivity.
Qed.

(** ** C4: what the archive receives *)

Section ArchiveContents.

Context {commons : Commons}.
Variable cfg : config.

(** As long as the capacity is not exceeded, what a generation adds to
    the archive is the trial vectors of the success positions. *)
Lemma archive_extension_is_trials (fuel : nat) (s s' : state) (t : trials) :
  variation cfg fuel s = Ret t ->
  generation cfg fuel s = Ret s' ->
  Z.of_nat (length (archive s) + length (t_indexes t)) <= population_size s ->
  archive s' = archive s ++ take_indexes [] (t_crossed t) (t_indexes t).
Proof.
  intros Hv Hg Hcap.
  assert (Hu : update cfg s t = Ret s')
    by (unfold generation in Hg; rewrite Hv in Hg; exact Hg).
  apply update_inv in Hu.
  destruct Hu as (a' & mcr' & mf' & k1 & g & psz & pop & fit & k2 & cd & bf & fh
                  & Ea & _ & _ & ->).
  simpl.
  assert (Hsame : take_indexes [] (t_population t) (t_indexes t)
                  = take_indexes [] (t_crossed t) (t_indexes t)).
  { unfold take_indexes. apply map_ext_in. intros i Hi.
    apply (variation_success_is_trial cfg fuel s t i Hv Hi). }
  unfold adapt in Ea. rewrite Hsame in Ea.
  destruct (0 <? length (t_indexes t))%nat.
  - ret_inv Ea as [a ga] E1.
    ret_inv Ea as [[x1 x2] x3] _.
    injection Ea as <- _ _ _ _.
    destruct (population_size s
              <? Z.of_nat (length (archive s ++ take_indexes [] (t_crossed t) (t_indexes t))))
      eqn:E.
    + apply Z.ltb_lt in E.
      rewrite length_app in E. unfold take_indexes in E. rewrite length_map in E. lia.
    + injection E1 as <- _. reflexivity.
  - injection Ea as <- _ _ _ _. reflexivity.
Qed.

End ArchiveContents.

(** C4 (the code breaks it). The claim: the vectors appended to the
    archive are the displaced parents. In scenario A all five trials
    improve on their parents [5], [6], [7], [8], [9]; line 132 rebinds
    [population] to the population after replacement, so line 136 appends
    the winning trials [4.5], ..., [8.5], and no displaced parent is in
    the archive. *)
Theorem archive_receives_trials_not_parents :
  exists t s',
    variation cfg_A 10 start_A = Ret t /\
    update cfg_A start_A t = Ret s' /\
    t_indexes t = [0; 1; 2; 3; 4]%nat /\
    take_indexes [] (population start_A) (t_indexes t)
      = [[5]; [6]; [7]; [8]; [9]]%float /\
    t_crossed t = [[4.5]; [5.5]; [6.5]; [7.5]; [8.5]]%float /\
    archive s' = [[4.5]; [5.5]; [6.5]; [7.5]; [8.5]]%float.
Proof.
  eexists; eexists.
  split; [vm_compute; reflexivity|].
  split; [vm_compute; reflexivity|].
  repeat split; vm_compute; reflexivity.
Qed.

(** ** C3: the archive bound *)

Section ArchiveBound.

Context {commons : Commons}.
Variable cfg : config.

Lemma update_archive (s s' : state) (t : trials) :
  update cfg s t = Ret s' ->
  (t_indexes t = [] /\ archive s' = archive s)
  \/ (t_indexes t <> [] /\ Z.of_nat (length (archive s')) <= population_size s).
Proof.
  intros H. apply update_inv in H.
  destruct H as (a' & mcr' & mf' & k1 & g & psz & pop & fit & k2 & cd & bf & fh
                 & Ea & _ & _ & ->).
  simpl. apply adapt_archive in Ea. exact Ea.
Qed.

Lemma generation_within_initial_size (fuel : nat) (s s' : state) :
  within_initial_size cfg s -> generation cfg fuel s = Ret s' -> within_initial_size cfg s'.
Proof.
  intros [Ha Hp] Hg.
  pose proof (generation_population_size cfg fuel s s' Hg) as Hle.
  apply generation_inv in Hg; destruct Hg as (t & _ & Hu).
  apply update_archive in Hu.
  unfold within_initial_size in *.
  split; [|lia].
  destruct Hu as [[_ ->]|[_ Hu]]; lia.
Qed.

Lemma reaches_within_initial_size (s s' : state) :
  reaches cfg s s' -> within_initial_size cfg s -> within_initial_size cfg s'.
Proof.
  induction 1 as [s|fuel s s1 s2 _ Hg _ IH]; intros Hs; [exact Hs|].
  apply IH. eapply generation_within_initial_size; eassumption.
Qed.

End ArchiveBound.

(** C3 (counterexample). In scenario A the first generation leaves five
    vectors in the archive (five successes, capacity 5) and then shrinks
    the population to the target 4: at the end of the generation the
    archive is longer than the population. *)
Lemma archive_exceeds_population_size :
  exists s',
    loop_guard cfg_A start_A = true /\
    generation cfg_A 10 start_A = Ret s' /\
    length (archive s') = 5%nat /\
    population_size s' = 4 /\
    length (population s') = 4%nat /\
    (population_size s' <? Z.of_nat (length (archive s'))) = true.
Proof.
  eexists.
  split; [reflexivity|].
  split; [vm_compute; reflexivity|].
  repeat split; vm_compute; reflexivity.
Qed.

(** From a state with an empty archive and the initial population size:
    the archive bound of one generation and of the run. *)
Lemma archive_bound_from {commons : Commons} (cfg : config)
    (fuel : nat) (s0 s s' : state) (t : trials) :
  archive s0 = [] ->
  population_size s0 = init_size cfg ->
  reaches cfg s0 s ->
  variation cfg fuel s = Ret t ->
  generation cfg fuel s = Ret s' ->
  ((t_indexes t = [] /\ archive s' = archive s)
   \/ (t_indexes t <> [] /\ Z.of_nat (length (archive s')) <= population_size s))
  /\ Z.of_nat (length (archive s')) <= init_size cfg.
Proof.
  intros Ha Hp Hr Hv Hg.
  assert (Hu : update cfg s t = Ret s')
    by (unfold generation in Hg; rewrite Hv in Hg; exact Hg).
  split; [apply (update_archive cfg s s' t Hu)|].
  assert (H0 : within_initial_size cfg s0).
  { split; [rewrite Ha; simpl | rewrite Hp; lia].
    (* the sizes are not negative, since the index draw of line 114 went through *)
    pose proof (reaches_population_size cfg s0 s Hr) as Hle.
    unfold variation in Hv.
    apply bind_Ret in Hv; destruct Hv as ([[cr f] g0] & Es & _).
    unfold sample_parameters in Es.
    apply bind_Ret in Es; destruct Es as ([r g1] & Ec & _).
    unfold np_random_choice in Ec.
    destruct (population_size s <? 0) eqn:En; [discriminate|].
    apply Z.ltb_ge in En. lia. }
  pose proof (reaches_within_initial_size cfg s0 s Hr H0) as Hs.
  apply (generation_within_initial_size cfg fuel s s' Hs Hg).
Qed.

(** C3 (as amended). Capacity is enforced before the shrink and only
    when the success set is not empty: in every generation of every run
    of [apply], the archive at the end of the generation is either
    unchanged (empty success set) or no longer than the population size
    with which the generation started; and it is never longer than the
    initial population size. *)
Theorem archive_within_pre_shrink_size {commons : Commons}
    (psize isize : pyval) (bnds : bounds_arg) (f : individual -> float)
    (msize : Z) (prec mec mevals seed : pyval)
    (generators : option Z -> Rng) (fuel0 fuel : nat)
    (cfg : config) (s0 s s' : state) (t : trials) :
  initialise psize isize bnds f msize prec mec mevals seed generators fuel0
  = Ret (cfg, s0) ->
  reaches cfg s0 s ->
  variation cfg fuel s = Ret t ->
  generation cfg fuel s = Ret s' ->
  ((t_indexes t = [] /\ archive s' = archive s)
   \/ (t_indexes t <> [] /\ Z.of_nat (length (archive s')) <= population_size s))
  /\ Z.of_nat (length (archive s')) <= init_size cfg.
Proof.
  intros Hi Hr Hv Hg.
  apply initialise_start in Hi.
  destruct Hi as (Ha & _ & Hp & _).
  exact (archive_bound_from cfg fuel s0 s s' t Ha Hp Hr Hv Hg).
Qed.

(** A run of the amended C3: the first generation of scenario A. *)
Lemma archive_within_pre_shrink_size_witness :
  exists t s',
    variation cfg_A 10 start_A = Ret t /\
    generation cfg_A 10 start_A = Ret s' /\
    ((t_indexes t = [] /\ archive s' = archive start_A)
     \/ (t_indexes t <> []
         /\ Z.of_nat (length (archive s')) <= population_size start_A))
    /\ Z.of_nat (length (archive s')) <= init_size cfg_A.
Proof.
  eexists; eexists.
  match goal with
  | |- ?A /\ ?B /\ _ =>
      assert (Hv : A) by (vm_compute; reflexivity);
      assert (Hg : B) by (vm_compute; reflexivity)
  end.
  split; [exact Hv|]. split; [exact Hg|].
  exact (archive_within_pre_shrink_size _ _ _ _ _ _ _ _ _ _ _ 10 cfg_A start_A
           start_A _ _ initialise_A (reaches_refl cfg_A start_A) Hv Hg).
Defined.

(** ** C5: the stagnation countdown *)

(** C5. In every generation of a run the countdown is decremented by one
    exactly when [precision] is a float and
    [|min(fitness) - best_fitness| < precision], where [min(fitness)] is
    the minimum after this generation's selection and shrink and
    [best_fitness] is the value from before this generation's update; it
    is never changed otherwise, so it never rises over the run; and once
    it is 0 the loop is left without another generation. *)
Theorem stagnation_countdown {commons : Commons} (cfg : config)
    (fuel gens fuel' : nat) (s0 s s' : state) :
  reaches cfg s0 s ->
  loop_guard cfg s = true ->
  generation cfg fuel s = Ret s' ->
  (exists m,
      np_min (fitness s') = Ret m /\
      converge_countdown s' =
        (if (isinstance_float (precision cfg)
             && (abs (m - best_fitness s) <? float_value (precision cfg))%float)%bool
         then converge_countdown s - 1 else converge_countdown s)) /\
  converge_countdown s - 1 <= converge_countdown s' <= converge_countdown s /\
  converge_countdown s' <= converge_countdown s0 /\
  0 <= converge_countdown s' /\
  (converge_countdown s' = 0 -> run cfg gens fuel' s' = Ret s').
Proof.
  intros Hr Hguard Hg.
  pose proof (generation_countdown cfg fuel s s' Hg) as Hstep.
  pose proof (reaches_countdown cfg s0 s Hr) as Hrun.
  unfold loop_guard in Hguard.
  apply andb_true_iff in Hguard; destruct Hguard as [_ Hpos].
  apply Z.ltb_lt in Hpos.
  apply generation_step in Hg; destruct Hg as ((m & Hm & Hcd & _) & _).
  split; [exists m; split; assumption|].
  split; [exact Hstep|].
  split; [lia|].
  split; [lia|].
  intros Hz. apply run_exit. unfold loop_guard.
  rewrite Hz. apply andb_false_r.
Qed.

(** A run of C5: with [precision = 1e-6] the first generation of
    scenario G improves nothing, the countdown goes from 1 to 0, and the
    loop is left. *)
Lemma stagnation_countdown_witness :
  exists s',
    generation (cfg_G (PyFloat 1e-6)) 10 start_G = Ret s' /\
    converge_countdown start_G = 1 /\
    converge_countdown s' = 0 /\
    run (cfg_G (PyFloat 1e-6)) 3 10 s' = Ret s'.
Proof.
  eexists.
  match goal with
  | |- ?A /\ _ => assert (Hg : A) by (vm_compute; reflexivity)
  end.
  split; [exact Hg|].
  split; [reflexivity|].
  split; [vm_compute; reflexivity|].
  apply (stagnation_countdown (cfg_G (PyFloat 1e-6)) 10 3 10 start_G start_G _
           (reaches_refl _ start_G) eq_refl Hg).
  vm_compute; reflexivity.
Defined.

(** ** C10: which precisions arm the stagnation stop *)

(** C10 (counterexample). [numpy.float64] is not the type [float], yet
    it passes [isinstance(precision, float)]: with
    [precision = numpy.float64(1e-6)] the countdown of scenario G drops
    from 1 to 0 in the first generation and the run ends after 10 of its
    12 evaluations. *)
Lemma numpy_float_precision_arms_the_stop :
  exists s',
    type_is_float (precision (cfg_G (NpFloat64 1e-6))) = false /\
    run (cfg_G (NpFloat64 1e-6)) 5 10 start_G = Ret s' /\
    converge_countdown start_G = 1 /\
    converge_countdown s' = 0 /\
    num_evals s' = 10 /\
    max_evals (cfg_G (NpFloat64 1e-6)) = 12.
Proof.
  eexists.
  split; [reflexivity|].
  split; [vm_compute; reflexivity|].
  repeat split; vm_compute; reflexivity.
Qed.

(** With a precision that is not an instance of [float] no generation
    touches the countdown, and the loop is left only with the budget
    used up. *)
Lemma run_without_float_precision {commons : Commons} (cfg : config)
    (gens fuel : nat) (s s' : state) :
  isinstance_float (precision cfg) = false ->
  0 < converge_countdown s ->
  run cfg gens fuel s = Ret s' ->
  converge_countdown s' = converge_countdown s /\
  max_evals cfg <= num_evals s'.
Proof.
  intros Hp Hpos Hrun.
  apply run_reaches in Hrun; destruct Hrun as [Hr Hq].
  assert (Hsame : converge_countdown s' = converge_countdown s).
  { clear Hq Hpos.
    induction Hr as [s|fuel' s s1 s2 _ Hg _ IH]; [reflexivity|].
    rewrite IH.
    apply generation_step in Hg; destruct Hg as ((m & _ & -> & _) & _).
    rewrite Hp. reflexivity. }
  split; [exact Hsame|].
  unfold loop_guard in Hq. apply andb_false_iff in Hq.
  destruct Hq as [Hq|Hq].
  - apply Z.ltb_ge in Hq; exact Hq.
  - apply Z.ltb_ge in Hq; lia.
Qed.

(** C10 (as amended). The stagnation stop is armed only when
    [precision] is an instance of [float] (the type [float] itself or a
    subclass such as [numpy.float64]): in every run of [apply] with any
    other precision, a positive int such as 1 included, the countdown with
    which the loop ends is the one with which it started, and the loop
    ends only with the evaluation budget used up. *)
Theorem stop_needs_float_instance {commons : Commons}
    (psize isize : pyval) (bnds : bounds_arg) (f : individual -> float)
    (msize : Z) (prec mec mevals seed : pyval)
    (generators : option Z -> Rng) (gens fuel : nat)
    (cfg : config) (s s' : state) :
  isinstance_float prec = false ->
  initialise psize isize bnds f msize prec mec mevals seed generators fuel
  = Ret (cfg, s) ->
  run cfg gens fuel s = Ret s' ->
  converge_countdown s' = converge_countdown s /\
  max_evals cfg <= num_evals s'.
Proof.
  intros Hp Hi Hrun.
  apply initialise_start in Hi.
  destruct Hi as (_ & _ & _ & _ & _ & _ & Hpos & Hprec).
  rewrite <- Hprec in Hp.
  exact (run_without_float_precision cfg gens fuel s s' Hp Hpos Hrun).
Qed.

(** A run of the amended C10: scenario G with [precision = 1] goes
    through both generations and ends at 14 >= 12 evaluations with the
    countdown still 1. *)
Lemma stop_needs_float_instance_witness :
  exists s',
    run (cfg_G (PyInt 1)) 5 100 start_G = Ret s' /\
    converge_countdown s' = converge_countdown start_G /\
    max_evals (cfg_G (PyInt 1)) <= num_evals s'.
Proof.
  eexists.
  match goal with
  | |- ?A /\ _ => assert (Hr : A) by (vm_compute; reflexivity)
  end.
  split; [exact Hr|].
  exact (stop_needs_float_instance _ _ _ _ _ (PyInt 1) _ _ _ _ 5 100
           (cfg_G (PyInt 1)) start_G _ eq_refl (initialise_G (PyInt 1)) Hr).
Defined.

(** ** C7: a generation with no success *)

(** C7 (counterexample). In scenario B five generations with successes
    bring the cursor to 5, which is also the initial population size; the
    sixth generation has no success, its target is 4, the population
    shrinks, and the guard of line 160 resets the cursor to 0. *)
Lemma cursor_reset_without_success :
  exists s5 t s6,
    reaches cfg_B start_B s5 /\
    loop_guard cfg_B s5 = true /\
    variation cfg_B 10 s5 = Ret t /\
    t_indexes t = [] /\
    generation cfg_B 10 s5 = Ret s6 /\
    k s5 = 5%nat /\
    k s6 = 0%nat /\
    m_cr s6 = m_cr s5 /\
    m_f s6 = m_f s5 /\
    population_size s5 = 5 /\
    population_size s6 = 4.
Proof.
  eexists; eexists; eexists.
  split.
  { do 5 (eapply reaches_step with (fuel := 10%nat);
          [vm_compute; reflexivity | vm_compute; reflexivity | ]).
    apply reaches_refl. }
  split; [vm_compute; reflexivity|].
  split; [vm_compute; reflexivity|].
  split; [vm_compute; reflexivity|].
  split; [vm_compute; reflexivity|].
  repeat split; vm_compute; reflexivity.
Qed.

(** C7 (as amended). If the success set of a generation is empty, both
    memory arrays are what they were, and so is the cursor k unless the
    generation shrinks the population while k equals the initial
    population size, in which case line 160 resets k to 0. *)
Theorem empty_success_set_frame {commons : Commons} (cfg : config)
    (fuel : nat) (s s' : state) (t : trials) :
  variation cfg fuel s = Ret t ->
  t_indexes t = [] ->
  generation cfg fuel s = Ret s' ->
  m_cr s' = m_cr s /\
  m_f s' = m_f s /\
  k s' = (if ((population_size s' <? population_size s)
              && (Z.of_nat (k s) =? init_size cfg))%bool
          then O else k s).
Proof.
  intros Hv Hidx Hg.
  assert (Hu : update cfg s t = Ret s')
    by (unfold generation in Hg; rewrite Hv in Hg; exact Hg).
  apply update_inv in Hu.
  destruct Hu as (a' & mcr' & mf' & k1 & g & psz & pop & fit & k2 & cd & bf & fh
                  & Ea & Es & _ & ->).
  rewrite Hidx, adapt_no_success in Ea.
  injection Ea as <- <- <- <- <-.
  simpl.
  apply shrink_inv in Es; destruct Es as (target & _ & -> & Hk).
  split; [reflexivity|]. split; [reflexivity|].
  destruct Hk as [[Hlt ->]|[Hge (_ & _ & ->)]].
  - replace (Z.min (population_size s) target <? population_size s) with true
      by (symmetry; apply Z.ltb_lt; lia).
    reflexivity.
  - replace (Z.min (population_size s) target <? population_size s) with false
      by (symmetry; apply Z.ltb_ge; lia).
    reflexivity.
Qed.

(** A run of the amended C7: the first generation of scenario G has no
    success; it shrinks the population, the cursor 0 is not the initial
    size 5, and memory and cursor are untouched. *)
Lemma empty_success_set_frame_witness :
  exists t s',
    variation (cfg_G (PyFloat 1e-6)) 10 start_G = Ret t /\
    t_indexes t = [] /\
    generation (cfg_G (PyFloat 1e-6)) 10 start_G = Ret s' /\
    m_cr s' = m_cr start_G /\
    m_f s' = m_f start_G /\
    k s' = k start_G.
Proof.
  eexists; eexists.
  match goal with
  | |- ?A /\ ?B /\ ?C /\ _ =>
      assert (Hv : A) by (vm_compute; reflexivity);
      assert (Hi : B) by (vm_compute; reflexivity);
      assert (Hg : C) by (vm_compute; reflexivity)
  end.
  split; [exact Hv|]. split; [exact Hi|]. split; [exact Hg|].
  destruct (empty_success_set_frame (cfg_G (PyFloat 1e-6)) 10 start_G _ _ Hv Hi Hg)
    as (H1 & H2 & H3).
  split; [exact H1|]. split; [exact H2|].
  rewrite H3. vm_compute; reflexivity.
Defined.

(** ** C8: the countdown's initial value *)

(** C8 (counterexample). [max_evals_after_converge = 0] is not replaced
    by the default: line 69 rejects it and [apply] raises. *)
Lemma nonpositive_countdown_is_rejected :
  apply (PyInt 5) (PyInt 1) wide sphere 6 (PyFloat 1e-6) (PyInt 0)
        (PyInt 12) (PyInt 1) false (scripted reals_A) 10 10
  = Raise (ValueError "max_evals_after_converge must be None or a positive integer.").
Proof. vm_compute; reflexivity. Qed.

Lemma check_passes (v : pyval) :
  py_le_zero v = Ret false -> check_max_evals_after_converge v = Ret tt.
Proof. unfold check_max_evals_after_converge; intros ->; reflexivity. Qed.

Lemma check_rejects (v : pyval) :
  py_le_zero v = Ret true ->
  check_max_evals_after_converge v
  = Raise (ValueError "max_evals_after_converge must be None or a positive integer.").
Proof. unfold check_max_evals_after_converge; intros ->; reflexivity. Qed.

Lemma initial_countdown_default (v : pyval) (dim : Z) :
  isinstance_int v = false -> initial_countdown v dim = 2 * dim.
Proof. unfold initial_countdown; intros ->; reflexivity. Qed.

(** C8 (as amended). Take any call that starts the loop when given the
    valid value 1. The same call with a value that is not an instance of
    [int] and is not [<= 0] (a positive float such as 2.5) starts the loop
    in the same state except that the countdown is the default
    [2 * individual_size]; the same call with a value that is [<= 0]
    raises the configuration error of line 70. *)
Theorem countdown_default_or_rejection {commons : Commons}
    (psize isize : pyval) (bnds : bounds_arg) (f : individual -> float)
    (msize : Z) (prec mevals seed : pyval)
    (generators : option Z -> Rng) (fuel : nat) (v : pyval) (c : config) (s : state) :
  initialise psize isize bnds f msize prec (PyInt 1) mevals seed generators fuel
  = Ret (c, s) ->
  (isinstance_int v = false -> py_le_zero v = Ret false ->
   initialise psize isize bnds f msize prec v mevals seed generators fuel
   = Ret (c, with_countdown s (2 * individual_size c))) /\
  (py_le_zero v = Ret true ->
   initialise psize isize bnds f msize prec v mevals seed generators fuel
   = Raise (ValueError "max_evals_after_converge must be None or a positive integer.")).
Proof.
  unfold initialise; intros H.
  ret_inv H as psz ->.
  ret_inv H as isz ->.
  ret_inv H as mev ->.
  ret_inv H as u _.
  ret_inv H as b Eb.
  ret_inv H as sd Esd.
  destruct (init_population psz isz b (generators sd)) as [pop g] eqn:Ei.
  ret_inv H as mcr Emcr.
  ret_inv H as mf Emf.
  ret_inv H as mi Emi.
  ret_inv H as bf Ebf.
  injection H as <- <-.
  rewrite Emcr in Emf; injection Emf as <-.
  split.
  - intros Hint Hle. cbn [bind].
    rewrite (check_passes v Hle). cbn [bind].
    rewrite Eb. cbn [bind]. rewrite Esd. cbn [bind]. rewrite Ei.
    rewrite Emcr. cbn [bind].
    rewrite Emi. cbn [bind]. rewrite Ebf. cbn [bind].
    rewrite (initial_countdown_default v isz Hint).
    reflexivity.
  - intros Hle. cbn [bind].
    rewrite (check_rejects v Hle). reflexivity.
Qed.

(** A run of the amended C8: with [max_evals_after_converge = 2.5] and
    [individual_size = 1] the loop is entered with the countdown 2. *)
Lemma countdown_default_or_rejection_witness :
  initialise (PyInt 5) (PyInt 1) wide sphere 6 (PyFloat 1e-6) (PyInt 1)
             (PyInt 12) (PyInt 1) (scripted reals_G) 100 = Ret (cfg_G (PyFloat 1e-6), start_G) /\
  initialise (PyInt 5) (PyInt 1) wide sphere 6 (PyFloat 1e-6) (PyFloat 2.5)
             (PyInt 12) (PyInt 1) (scripted reals_G) 100
  = Ret (cfg_G (PyFloat 1e-6), with_countdown start_G 2).
Proof.
  assert (H : initialise (PyInt 5) (PyInt 1) wide sphere 6 (PyFloat 1e-6) (PyInt 1)
                (PyInt 12) (PyInt 1) (scripted reals_G) 100
              = Ret (cfg_G (PyFloat 1e-6), start_G))
    by (vm_compute; reflexivity).
  split; [exact H|].
  exact (proj1 (countdown_default_or_rejection (PyInt 5) (PyInt 1) wide sphere 6
                  (PyFloat 1e-6) (PyInt 12) (PyInt 1) (scripted reals_G) 100
                  (PyFloat 2.5) _ _ H) eq_refl eq_refl).
Defined.

(** ** C9: how long the resampling loop runs *)

(** C9 (counterexample). With a generator whose Cauchy variates are all
    -10 every redraw from the memory entry 0.5 is -0.5: however many
    passes are allowed, the loop of line 121 neither returns nor raises. *)
Lemma resampling_can_loop_for_ever :
  exists g, forall fuel,
    resample_f fuel 6 (half 6) [(-0.5)%float] g = Diverge.
Proof.
  exists (hopeless 0 0). intros fuel. apply hopeless_diverges.
Qed.

(** C9 (as amended). The loop of line 121 has no iteration cap and no
    failure signal: it runs for as long as the draws leave an entry
    [<= 0], so for every number n some generator keeps it running for
    more than n passes, after which it returns with no entry [<= 0]. *)
Theorem resampling_is_unbounded (n : nat) :
  exists g f' g',
    resample_f n 6 (half 6) [(-0.5)%float] g = Diverge /\
    resample_f (S n) 6 (half 6) [(-0.5)%float] g = Ret (f', g') /\
    count_invalid f' = 0%nat.
Proof.
  exists (stubborn n 0 0), [0.5%float], (stubborn n (0 + n + 1) (n + 1)).
  split; [apply stubborn_diverges; lia|].
  split; [apply stubborn_returns; lia|].
  reflexivity.
Qed.

(* ===================================================================== *)
(** * Further properties of [apply] and [get_default_params] *)
(* ===================================================================== *)

(** ** Parameter checks *)

Section ParameterChecks.

Context {commons : Commons}.

(** The checks of lines 59-79 come before anything else in [apply]: what
    they raise is what [initialise] raises. *)
Lemma initialise_checks_first
    (psize isize : pyval) (bnds : bounds_arg) (f : individual -> float)
    (msize : Z) (prec mec mevals seed : pyval)
    (generators : option Z -> Rng) (fuel : nat) (e : exn) :
  check_parameters psize isize bnds mec mevals seed = Raise e ->
  initialise psize isize bnds f msize prec mec mevals seed generators fuel = Raise e.
Proof.
  unfold check_parameters, initialise.
  destruct (check_positive_int _ psize) as [p| |]; cbn [bind]; try (intros H; (discriminate H || (injection H as ->; reflexivity))).
  destruct (check_positive_int _ isize) as [d| |]; cbn [bind]; try (intros H; (discriminate H || (injection H as ->; reflexivity))).
  destruct (check_positive_int _ mevals) as [m| |]; cbn [bind]; try (intros H; (discriminate H || (injection H as ->; reflexivity))).
  destruct (check_max_evals_after_converge mec) as [u| |]; cbn [bind]; try (intros H; (discriminate H || (injection H as ->; reflexivity))).
  destruct (check_bounds d bnds) as [b| |]; cbn [bind]; try (intros H; (discriminate H || (injection H as ->; reflexivity))).
  destruct (check_seed seed) as [sd| |]; cbn [bind]; try (intros H; (discriminate H || (injection H as ->; reflexivity))).
Qed.

End ParameterChecks.

Lemma check_positive_int_iff (msg : string) (v : pyval) (z : Z) :
  check_positive_int msg v = Ret z <-> v = PyInt z /\ 0 < z.
Proof.
  split; [apply check_positive_int_inv|].
  intros [-> Hz]. unfold check_positive_int. cbn [type_is_int int_value negb orb].
  destruct (z <=? 0) eqn:E; [apply Z.leb_le in E; lia | reflexivity].
Qed.

Lemma check_bounds_iff (d : Z) (b : bounds_arg) (rows : bounds_t) :
  check_bounds d b = Ret rows <-> b = BoundsArray [d; 2] rows.
Proof.
  split.
  - destruct b as [shape r|]; [|discriminate].
    destruct shape as [|n1 [|n2 [|n3 shape]]]; try discriminate.
    cbn [check_bounds].
    destruct (n1 =? d) eqn:E1; [|discriminate].
    destruct (n2 =? 2) eqn:E2; [|discriminate].
    apply Z.eqb_eq in E1, E2. cbn [andb]. intros H; injection H as <-.
    subst; reflexivity.
  - intros ->. cbn [check_bounds]. rewrite !Z.eqb_refl. reflexivity.
Qed.

(** Positive integers, a countdown that compares as positive, a bounds
    array of the right shape and an acceptable seed pass all six checks. *)
Lemma check_parameters_passes (p d m : Z) (rows : bounds_t)
    (mec seed : pyval) (sd : option Z) :
  0 < p -> 0 < d -> 0 < m ->
  py_le_zero mec = Ret false ->
  check_seed seed = Ret sd ->
  check_parameters (PyInt p) (PyInt d) (BoundsArray [d; 2] rows) mec (PyInt m) seed
  = Ret (p, d, m, rows, sd).
Proof.
  intros H1 H2 H3 H4 H6. unfold check_parameters.
  rewrite (proj2 (check_positive_int_iff _ (PyInt p) p) (conj eq_refl H1)). cbn [bind].
  rewrite (proj2 (check_positive_int_iff _ (PyInt d) d) (conj eq_refl H2)). cbn [bind].
  rewrite (proj2 (check_positive_int_iff _ (PyInt m) m) (conj eq_refl H3)). cbn [bind].
  rewrite (check_passes mec H4). cbn [bind].
  rewrite (proj2 (check_bounds_iff d _ rows) eq_refl). cbn [bind].
  rewrite H6. reflexivity.
Qed.


(** X2. [max_evals_after_converge = None], which the signature, the
    docstring and the error message of line 70 all allow, does not reach
    the default of line 110: the comparison of line 69 raises [TypeError],
    whatever the other arguments, as soon as the three sizes are valid. *)
Theorem none_countdown_raises_type_error {commons : Commons}
    (p d m : Z) (bnds : bounds_arg) (f : individual -> float)
    (msize : Z) (prec seed : pyval)
    (return_history : bool) (generators : option Z -> Rng) (gens fuel : nat) :
  0 < p -> 0 < d -> 0 < m ->
  apply (PyInt p) (PyInt d) bnds f msize prec PyNone (PyInt m) seed
        return_history generators gens fuel
  = Raise TypeError.
Proof.
  intros Hp Hd Hm.
  unfold apply.
  rewrite (initialise_checks_first _ _ _ _ _ _ _ _ _ _ _ TypeError); [reflexivity|].
  unfold check_parameters.
  rewrite (proj2 (check_positive_int_iff _ (PyInt p) p) (conj eq_refl Hp)). cbn [bind].
  rewrite (proj2 (check_positive_int_iff _ (PyInt d) d) (conj eq_refl Hd)). cbn [bind].
  rewrite (proj2 (check_positive_int_iff _ (PyInt m) m) (conj eq_refl Hm)). cbn [bind].
  reflexivity.
Qed.


Lemma none_countdown_raises_type_error_witness :
  apply (PyInt 5) (PyInt 1) wide sphere 6 (PyFloat 1e-6) PyNone (PyInt 12) (PyInt 1)
        false (scripted reals_A) 5 100
  = Raise TypeError.
Proof.
  apply (none_countdown_raises_type_error 5 1 12); reflexivity.
Defined.

(** X3. The values of [get_default_params(dim)] pass the parameter checks
    of [apply] for every positive [dim] and every bounds array of shape
    (dim, 2); with them the population starts at 18 * dim >= 18, the
    countdown starts at 2 * dim, and the precision is a float, so the
    stagnation stop is armed. *)
Theorem default_params_are_accepted (dim : Z) (rows : bounds_t) :
  0 < dim ->
  let dp := get_default_params dim in
  check_parameters (dp_population_size dp) (dp_individual_size dp)
                   (BoundsArray [dim; 2] rows)
                   (dp_max_evals_after_converge dp) (dp_max_evals dp) (dp_seed dp)
  = Ret (18 * dim, dim, 10000 * dim, rows, None) /\
  initial_countdown (dp_max_evals_after_converge dp) dim = 2 * dim /\
  dp_max_evals_after_converge dp = PyInt (default_max_evals_after_converge dim) /\
  isinstance_float (dp_precision dp) = true /\
  18 <= 18 * dim.
Proof.
  intros Hdim dp. subst dp. unfold get_default_params.
  cbn [dp_population_size dp_individual_size dp_max_evals dp_seed dp_precision
       dp_max_evals_after_converge isinstance_float].
  split.
  - apply check_parameters_passes; try lia; try reflexivity.
    cbn [py_le_zero].
    destruct (2 * dim <=? 0) eqn:E; [apply Z.leb_le in E; lia | reflexivity].
  - split; [|split; [reflexivity | split; [reflexivity | lia]]].
    unfold initial_countdown. cbn [isinstance_int py_gt_zero int_value].
    destruct (0 <? 2 * dim) eqn:E; [reflexivity | apply Z.ltb_ge in E; lia].
Qed.

Lemma default_params_are_accepted_witness :
  check_parameters (PyInt 36) (PyInt 2) (BoundsArray [2; 2] [])
                   (PyInt 4) (PyInt 20000) PyNone
  = Ret (36, 2, 20000, [], None).
Proof.
  exact (proj1 (default_params_are_accepted 2 [] eq_refl)).
Defined.

(** ** The sampled CR and F *)

Lemma np_random_choice_length (a : list nat) (size : Z) (g : Rng)
    (r : list nat) (g' : Rng) :
  np_random_choice a size g = Ret (r, g') -> length r = Z.to_nat size.
Proof.
  unfold np_random_choice.
  destruct (size <? 0); [discriminate|].
  destruct (Nat.eqb (length a) 0 && (0 <? size))%bool; [discriminate|].
  cbn. intros H; injection H as <- _.
  rewrite !length_map, length_seq. reflexivity.
Qed.

Lemma cauchy_rvs_length (loc : list float) (scale : float) (g : Rng) :
  length (fst (cauchy_rvs loc scale g)) = length loc.
Proof.
  unfold cauchy_rvs; cbn.
  rewrite length_map, length_combine, length_map, length_seq. lia.
Qed.

Lemma nth_map_lt {A B : Type} (f : A -> B) (l : list A) (i : nat) (d : B) (d' : A) :
  (i < length l)%nat -> nth i (map f l) d = f (nth i l d').
Proof.
  revert i; induction l as [|a l IH]; intros [|i] H; cbn in *; try lia; try reflexivity.
  apply IH; lia.
Qed.

Lemma np_clip_within (x : float) :
  (np_clip 0 1 x <? 0)%float = false /\ (1 <? np_clip 0 1 x)%float = false.
Proof.
  unfold np_clip.
  destruct (x <? 0)%float eqn:E0; [split; reflexivity|].
  destruct (1 <? x)%float eqn:E1; [split; reflexivity|].
  split; assumption.
Qed.

(** The CR array has one entry per drawn index, each within [0, 1]. *)
Lemma sample_cr_shape (m_cr : list float) (r : list nat) (g : Rng) :
  length (fst (sample_cr m_cr r g)) = length r /\
  Forall (fun c => (c <? 0)%float = false /\ (1 <? c)%float = false)
         (fst (sample_cr m_cr r g)).
Proof.
  unfold sample_cr, np_random_normal, next_reals, take_indexes. cbn.
  set (loc := map (fun i => nth i m_cr nan) r).
  set (zs := map (fun i => np_reals g (np_rpos g + i)%nat) (seq 0 (length loc))).
  assert (Hloc : length loc = length r) by (unfold loc; apply length_map).
  assert (Hzs : length zs = length r)
    by (unfold zs; rewrite length_map, length_seq; exact Hloc).
  split; [rewrite length_map, length_combine, !length_map, length_combine; lia|].
  apply Forall_forall. intros c Hc.
  apply in_map_iff in Hc; destruct Hc as ([l x] & <- & Hin).
  apply in_combine_r in Hin. apply in_map_iff in Hin; destruct Hin as (y & <- & _).
  cbn [fst snd].
  destruct (l =? 1)%float; [split; reflexivity | apply np_clip_within].
Qed.

(** X4. Every CR of a generation is clipped: none is below 0 and none is
    above 1; there is one per drawn memory index; and an individual whose
    memory entry is exactly 1 gets CR = 0 whatever was drawn. *)
Theorem sampled_cr_is_clipped (m_cr : list float) (r : list nat) (g : Rng) :
  let cr := fst (sample_cr m_cr r g) in
  length cr = length r /\
  Forall (fun c => (c <? 0)%float = false /\ (1 <? c)%float = false) cr /\
  (forall i, (i < length r)%nat ->
             (nth (nth i r 0%nat) m_cr nan =? 1)%float = true ->
             nth i cr nan = 0%float).
Proof.
  intros cr. subst cr.
  split; [apply sample_cr_shape|]. split; [apply sample_cr_shape|].
  unfold sample_cr, np_random_normal, next_reals, take_indexes. cbn.
  set (loc := map (fun i => nth i m_cr nan) r).
  set (zs := map (fun i => np_reals g (np_rpos g + i)%nat) (seq 0 (length loc))).
  set (raw := map (fun lz => (fst lz + 0.1 * snd lz)%float) (combine loc zs)).
  assert (Hloc : length loc = length r) by (unfold loc; apply length_map).
  assert (Hzs : length zs = length r)
    by (unfold zs; rewrite length_map, length_seq; exact Hloc).
  assert (Hraw : length raw = length r)
    by (unfold raw; rewrite length_map, length_combine; lia).
  intros i Hi Hone.
  set (pairs := combine loc (map (np_clip 0 1) raw)).
  assert (Hp : (i < length pairs)%nat)
    by (unfold pairs; rewrite length_combine, length_map; lia).
  rewrite (nth_map_lt _ pairs i nan (nan, nan)) by exact Hp.
  unfold pairs. rewrite combine_nth by (rewrite length_map; lia).
  cbn [fst snd].
  unfold loc at 1.
  rewrite (nth_map_lt _ r i nan 0%nat) by exact Hi.
  rewrite Hone. reflexivity.
Qed.

Lemma sampled_cr_is_clipped_witness :
  nth 1 (fst (sample_cr [0.5; 1]%float [0; 1; 0]%nat (Scenario.reading [2; 2; 2]%float 0))) nan
  = 0%float.
Proof.
  apply (proj2 (proj2 (sampled_cr_is_clipped [0.5; 1]%float [0; 1; 0]%nat
                         (Scenario.reading [2; 2; 2]%float 0))));
    [cbn; lia | reflexivity].
Defined.

Lemma refill_length (f fresh : list float) : length (refill f fresh) = length f.
Proof.
  revert fresh; induction f as [|x f IH]; intros fresh; [reflexivity|].
  cbn [refill]. destruct (x <=? 0)%float; [destruct fresh|]; cbn [length]; rewrite IH; reflexivity.
Qed.

Lemma refill_keeps_valid (f fresh : list float) (i : nat) (d : float) :
  (i < length f)%nat -> (nth i f d <=? 0)%float = false ->
  nth i (refill f fresh) d = nth i f d.
Proof.
  revert fresh i; induction f as [|x f IH]; intros fresh i Hi Hv; [cbn in Hi; lia|].
  destruct i as [|i].
  - cbn in Hv. cbn [refill]. rewrite Hv. reflexivity.
  - cbn [length] in Hi. cbn [nth] in Hv.
    cbn [refill]. destruct (x <=? 0)%float; [destruct fresh|]; cbn [nth]; apply IH; (lia || assumption).
Qed.

Lemma resample_f_keeps_valid (fuel : nat) (ms : Z) (mf f : list float) (g : Rng)
    (f' : list float) (g' : Rng) :
  resample_f fuel ms mf f g = Ret (f', g') ->
  length f' = length f /\
  forall i d, (i < length f)%nat -> (nth i f d <=? 0)%float = false ->
              nth i f' d = nth i f d.
Proof.
  revert f g; induction fuel as [|fuel IH]; intros f g H; cbn [resample_f] in H.
  - destruct (Nat.eqb (count_invalid f) 0); [|discriminate].
    injection H as <- _. split; [reflexivity | intros; reflexivity].
  - destruct (Nat.eqb (count_invalid f) 0).
    + injection H as <- _. split; [reflexivity | intros; reflexivity].
    + ret_inv H as [r g1] Ec.
      destruct (cauchy_rvs (take_indexes nan mf r) 0.1 g1) as [fresh g2] eqn:Er.
      apply IH in H. destruct H as [Hlen Hkeep].
      rewrite refill_length in Hlen.
      split; [exact Hlen|].
      intros i d Hi Hv.
      rewrite Hkeep.
      * apply refill_keeps_valid; assumption.
      * rewrite refill_length; exact Hi.
      * rewrite refill_keeps_valid; assumption.
Qed.

(** X6. Only invalid draws are replaced: an F value drawn on line 118
    that is neither [<= 0] nor [> 1] is the F value that the generation
    uses for that individual, however many passes the loop of line 121
    makes for the others. *)
Theorem valid_first_draw_is_kept (fuel : nat) (ms : Z) (mf : list float)
    (r : list nat) (g : Rng) (f : list float) (g' : Rng) (i : nat) :
  sample_f fuel ms mf r g = Ret (f, g') ->
  let x := nth i (fst (cauchy_rvs (take_indexes nan mf r) 0.1%float g)) nan in
  (i < length r)%nat ->
  (x <=? 0)%float = false ->
  (1 <? x)%float = false ->
  nth i f nan = x.
Proof.
  intros H x Hi Hpos Hle. unfold sample_f in H.
  pose proof (cauchy_rvs_length (take_indexes nan mf r) 0.1%float g) as Hlen.
  destruct (cauchy_rvs (take_indexes nan mf r) 0.1%float g) as [f0 g1] eqn:E0.
  cbn [fst] in x, Hlen.
  unfold take_indexes in Hlen. rewrite length_map in Hlen.
  apply resample_f_keeps_valid in H. destruct H as [_ Hkeep].
  assert (Hz : nth i (zero_above_one f0) nan = x).
  { unfold zero_above_one.
    rewrite (nth_map_lt _ f0 i nan nan) by lia.
    fold x. rewrite Hle. reflexivity. }
  rewrite Hkeep.
  - exact Hz.
  - unfold zero_above_one. rewrite length_map. lia.
  - rewrite Hz. exact Hpos.
Qed.

Lemma valid_first_draw_is_kept_witness :
  exists f g',
    sample_f 10 6 (Scenario.half 6) [0; 0; 0; 0]%nat (Scenario.reading Scenario.reals_D 8)
    = Ret (f, g') /\
    nth 0 f nan = 0.5%float.
Proof.
  eexists; eexists.
  match goal with
  | |- ?A /\ _ => assert (H : A) by (vm_compute; reflexivity)
  end.
  split; [exact H|].
  exact (valid_first_draw_is_kept 10 6 _ _ _ _ _ 0 H
           ltac:(cbn; lia) eq_refl eq_refl).
Defined.

Section SampledParameters.

Context {commons : Commons}.
Variable cfg : config.

(** X5. What a generation hands to the mutation and the crossover: one F
    and one CR per individual of [population_size]; no F is [<= 0]; no CR
    is below 0 or above 1. *)
Theorem sampled_parameters_shape (fuel : nat) (s : state) (t : trials) :
  variation cfg fuel s = Ret t ->
  length (t_f t) = Z.to_nat (population_size s) /\
  length (t_cr t) = Z.to_nat (population_size s) /\
  Forall (fun x => (x <=? 0)%float = false) (t_f t) /\
  Forall (fun c => (c <? 0)%float = false /\ (1 <? c)%float = false) (t_cr t).
Proof.
  unfold variation; intros H.
  ret_inv H as [[cr f] g] Es.
  destruct (current_to_pbest_mutation _ _ _ _ _ _) as [mutated g2].
  destruct (crossover _ _ _ _) as [crossed g3].
  ret_inv H as [pop' idx] _.
  injection H as <-. cbn [t_f t_cr].
  unfold sample_parameters in Es.
  ret_inv Es as [r g1] Ec.
  apply np_random_choice_length in Ec.
  pose proof (sample_cr_shape (m_cr s) r g1) as (Hl & Hr).
  destruct (sample_cr (m_cr s) r g1) as [cr0 g2'] eqn:Ecr.
  cbn [fst] in Hl, Hr.
  ret_inv Es as [f0 g3'] Ef.
  injection Es as <- <- _.
  split.
  - unfold sample_f in Ef.
    pose proof (cauchy_rvs_length (take_indexes nan (m_f s) r) 0.1%float g2') as Hc.
    destruct (cauchy_rvs _ _ g2') as [f1 g4] eqn:E1. cbn [fst] in Hc.
    apply resample_f_keeps_valid in Ef. destruct Ef as [Hlen _].
    rewrite Hlen. unfold zero_above_one. rewrite length_map, Hc.
    unfold take_indexes. rewrite length_map. exact Ec.
  - split; [rewrite Hl; exact Ec|].
    split; [|exact Hr].
    apply sample_f_valid in Ef.
    apply Forall_forall. intros x Hx.
    rewrite forallb_forall in Ef. specialize (Ef x Hx).
    apply negb_true_iff in Ef. exact Ef.
Qed.

End SampledParameters.

Lemma sampled_parameters_shape_witness :
  exists t,
    variation Scenario.cfg_D 10 Scenario.start_D = Ret t /\
    length (t_f t) = 4%nat /\ length (t_cr t) = 4%nat.
Proof.
  eexists.
  match goal with
  | |- ?A /\ _ => assert (H : A) by (vm_compute; reflexivity)
  end.
  split; [exact H|].
  destruct (sampled_parameters_shape Scenario.cfg_D 10 Scenario.start_D _ H)
    as (H1 & H2 & _).
  split; assumption.
Defined.

(** ** The success-history memory *)

Lemma set_nth_length {A : Type} (i : nat) (v : A) (xs : list A) :
  length (set_nth i v xs) = length xs.
Proof.
  revert i; induction xs as [|x xs IH]; intros [|i]; cbn; try reflexivity.
  rewrite IH; reflexivity.
Qed.

Lemma set_nth_same {A : Type} (i : nat) (v d : A) (xs : list A) :
  (i < length xs)%nat -> nth i (set_nth i v xs) d = v.
Proof.
  revert i; induction xs as [|x xs IH]; intros [|i] H; cbn in *; try lia; try reflexivity.
  apply IH; lia.
Qed.

Lemma set_nth_other {A : Type} (i j : nat) (v d : A) (xs : list A) :
  j <> i -> nth j (set_nth i v xs) d = nth j xs d.
Proof.
  revert i j; induction xs as [|x xs IH]; intros [|i] [|j] H; cbn; try reflexivity;
    try congruence.
  apply IH; congruence.
Qed.

Lemma set_nth_twice {A : Type} (i : nat) (v w : A) (xs : list A) :
  set_nth i v (set_nth i w xs) = set_nth i v xs.
Proof.
  revert i; induction xs as [|x xs IH]; intros [|i]; cbn; try reflexivity.
  rewrite IH; reflexivity.
Qed.

(** What lines 142-150 do to the memory and the cursor, read off a
    successful update. *)
Lemma update_memory_inv (ms : Z) (mcr mf : list float) (k : nat)
    (fit cfit cr f : list float) (idx : list nat)
    (mcr' mf' : list float) (k' : nat) :
  update_memory ms mcr mf k fit cfit cr f idx = Ret (mcr', mf', k') ->
  (k < length mcr)%nat /\ (k < length mf)%nat /\
  (exists v, mcr' = set_nth k v mcr /\ is_nan v = false) /\
  (exists w, mf' = set_nth k w mf) /\
  k' = (if Z.of_nat (S k) =? ms then O else S k).
Proof.
  unfold update_memory.
  set (weights := map _ (map _ idx)).
  set (vcr := (_ / _)%float).
  set (vf := (_ / _)%float).
  destruct (length mcr <=? k)%nat eqn:E1; [discriminate|].
  destruct (length mf <=? k)%nat eqn:E2; [discriminate|].
  apply Nat.leb_gt in E1, E2.
  intros H; injection H as <- <- <-.
  split; [exact E1|]. split; [exact E2|].
  split; [|split; [exists vf; reflexivity | reflexivity]].
  rewrite set_nth_same by exact E1. unfold np_isnan.
  destruct (is_nan vcr) eqn:En.
  - exists 1%float. rewrite set_nth_twice. split; reflexivity.
  - exists vcr. split; [reflexivity | exact En].
Qed.

Lemma update_memory_returns (ms : Z) (mcr mf : list float) (k : nat)
    (fit cfit cr f : list float) (idx : list nat) :
  (k < length mcr)%nat -> (k < length mf)%nat ->
  returns_value (update_memory ms mcr mf k fit cfit cr f idx) = true.
Proof.
  intros H1 H2. unfold update_memory.
  apply Nat.leb_gt in H1, H2. rewrite H1, H2. reflexivity.
Qed.

Lemma adapt_with_success (ms : Z) (pop : list individual) (idx : list nat) (psz : Z)
    (fit cfit cr f : list float) (arch : list individual) (mcr mf : list float)
    (k : nat) (g : Rng) (arch' : list individual) (mcr' mf' : list float)
    (k' : nat) (g' : Rng) :
  idx <> [] ->
  adapt ms pop idx psz fit cfit cr f arch mcr mf k g = Ret (arch', mcr', mf', k', g') ->
  update_memory ms mcr mf k fit cfit cr f idx = Ret (mcr', mf', k').
Proof.
  intros Hne. unfold adapt.
  destruct idx as [|i idx]; [congruence|]. cbn [length Nat.ltb Nat.leb].
  intros H. ret_inv H as [a ga] _. ret_inv H as [[x1 x2] x3] E.
  injection H as _ <- <- <- _. exact E.
Qed.

Section MemoryFacts.

Context {commons : Commons}.
Variable cfg : config.

(** The memory and the cursor after a generation, by cases on the
    success set. *)
Lemma generation_memory (fuel : nat) (s s' : state) (t : trials) :
  variation cfg fuel s = Ret t ->
  generation cfg fuel s = Ret s' ->
  exists k1,
    k s' = (if ((population_size s' <? population_size s)
                && (Z.of_nat k1 =? init_size cfg))%bool then O else k1) /\
    ((t_indexes t = [] /\ m_cr s' = m_cr s /\ m_f s' = m_f s /\ k1 = k s)
     \/ (t_indexes t <> [] /\
         update_memory (memory_size cfg) (m_cr s) (m_f s) (k s) (fitness s)
                       (t_c_fitness t) (t_cr t) (t_f t) (t_indexes t)
         = Ret (m_cr s', m_f s', k1))).
Proof.
  intros Hv Hg.
  assert (Hu : update cfg s t = Ret s')
    by (unfold generation in Hg; rewrite Hv in Hg; exact Hg).
  apply update_inv in Hu.
  destruct Hu as (a' & mcr' & mf' & k1 & g & psz & pop & fit & k2 & cd & bf & fh
                  & Ea & Es & _ & ->).
  cbn [k m_cr m_f population_size].
  exists k1. split.
  - apply shrink_inv in Es; destruct Es as (target & _ & -> & Hk).
    destruct Hk as [[Hlt ->]|[Hge (_ & _ & ->)]].
    + replace (Z.min (population_size s) target <? population_size s) with true
        by (symmetry; apply Z.ltb_lt; lia).
      reflexivity.
    + replace (Z.min (population_size s) target <? population_size s) with false
        by (symmetry; apply Z.ltb_ge; lia).
      reflexivity.
  - destruct (t_indexes t) as [|i idx] eqn:Ei.
    + left. rewrite adapt_no_success in Ea.
      injection Ea as E1 E2 E3 E4 E5. subst mcr' mf' k1. repeat split; reflexivity.
    + right. split; [discriminate|].
      assert (Hne : i :: idx <> []) by discriminate.
      exact (adapt_with_success _ _ _ _ _ _ _ _ _ _ _ _ _ _ _ _ _ _ Hne Ea).
Qed.

(** X7. A generation writes at most one slot of each memory array, the
    one under the cursor: the arrays keep their length and every other
    slot keeps its value. *)
Theorem memory_written_at_cursor_only (fuel : nat) (s s' : state) (j : nat) (d : float) :
  generation cfg fuel s = Ret s' ->
  j <> k s ->
  length (m_cr s') = length (m_cr s) /\
  length (m_f s') = length (m_f s) /\
  nth j (m_cr s') d = nth j (m_cr s) d /\
  nth j (m_f s') d = nth j (m_f s) d.
Proof.
  intros Hg Hj.
  destruct (generation_inv cfg fuel s s' Hg) as (t & Hv & _).
  destruct (generation_memory fuel s s' t Hv Hg) as (k1 & _ & [H|H]).
  - destruct H as (_ & -> & -> & _). repeat split; reflexivity.
  - destruct H as (_ & Hu). apply update_memory_inv in Hu.
    destruct Hu as (_ & _ & (v & -> & _) & (w & ->) & _).
    rewrite !set_nth_length, !set_nth_other by exact Hj.
    repeat split; reflexivity.
Qed.

(** X8. After a generation with a non-empty success set the CR-mem slot
    that was under the cursor is not NaN: a Lehmer mean that is undefined
    is replaced by 1 (lines 145-146). *)
Theorem cr_memory_slot_is_not_nan (fuel : nat) (s s' : state) (t : trials) :
  variation cfg fuel s = Ret t ->
  t_indexes t <> [] ->
  generation cfg fuel s = Ret s' ->
  is_nan (nth (k s) (m_cr s') nan) = false.
Proof.
  intros Hv Hne Hg.
  destruct (generation_memory fuel s s' t Hv Hg) as (k1 & _ & [H|H]).
  - destruct H as (He & _). contradiction.
  - destruct H as (_ & Hu). apply update_memory_inv in Hu.
    destruct Hu as (Hk & _ & (v & -> & Hv') & _).
    rewrite set_nth_same by exact Hk. exact Hv'.
Qed.

(** X10. After a generation with a non-empty success set the cursor has
    advanced by one slot, circularly; the only exception is the reset of
    line 160, taken when the generation shrinks the population and the
    advanced cursor equals the initial population size. *)
Theorem cursor_advances_circularly (fuel : nat) (s s' : state) (t : trials) :
  variation cfg fuel s = Ret t ->
  t_indexes t <> [] ->
  generation cfg fuel s = Ret s' ->
  Z.of_nat (k s) < memory_size cfg ->
  let next := (Z.of_nat (k s) + 1) mod memory_size cfg in
  Z.of_nat (k s') =
    (if ((population_size s' <? population_size s) && (next =? init_size cfg))%bool
     then 0 else next).
Proof.
  intros Hv Hne Hg Hk next.
  destruct (generation_memory fuel s s' t Hv Hg) as (k1 & -> & [H|H]).
  - destruct H as (He & _). contradiction.
  - destruct H as (_ & Hu). apply update_memory_inv in Hu.
    destruct Hu as (_ & _ & _ & _ & ->).
    assert (Hnext : Z.of_nat (if Z.of_nat (S (k s)) =? memory_size cfg
                               then O else S (k s)) = next).
    { unfold next. destruct (Z.of_nat (S (k s)) =? memory_size cfg) eqn:E.
      - apply Z.eqb_eq in E.
        replace (Z.of_nat (k s) + 1) with (memory_size cfg) by lia.
        rewrite Z_mod_same_full. reflexivity.
      - apply Z.eqb_neq in E.
        rewrite Z.mod_small by lia. lia. }
    rewrite Hnext.
    destruct ((population_size s' <? population_size s) && (next =? init_size cfg))%bool;
      [reflexivity | exact Hnext].
Qed.

(** One generation keeps [memory_ok]. *)
Lemma generation_memory_ok (fuel : nat) (s s' : state) :
  memory_ok cfg s -> generation cfg fuel s = Ret s' -> memory_ok cfg s'.
Proof.
  intros (H1 & H2 & H3) Hg.
  destruct (generation_inv cfg fuel s s' Hg) as (t & Hv & _).
  destruct (generation_memory fuel s s' t Hv Hg) as (k1 & Hk & [H|H]).
  - destruct H as (_ & E1 & E2 & ->).
    unfold memory_ok. rewrite E1, E2, Hk.
    repeat split; try assumption.
    destruct (_ && _)%bool; [cbn; lia | exact H3].
  - destruct H as (_ & Hu). apply update_memory_inv in Hu.
    destruct Hu as (_ & _ & (v & E1 & _) & (w & E2) & E3).
    unfold memory_ok. rewrite E1, E2, Hk, !set_nth_length.
    repeat split; try assumption.
    destruct (_ && _)%bool; [cbn; lia|].
    rewrite E3. destruct (Z.of_nat (S (k s)) =? memory_size cfg) eqn:E.
    + cbn; lia.
    + apply Z.eqb_neq in E. lia.
Qed.

Lemma reaches_memory_ok (s s' : state) :
  reaches cfg s s' -> memory_ok cfg s -> memory_ok cfg s'.
Proof.
  induction 1 as [s|fuel s s1 s2 _ Hg _ IH]; intros Hs; [exact Hs|].
  apply IH. eapply generation_memory_ok; eassumption.
Qed.

End MemoryFacts.

Lemma np_ones_half_length (n : Z) (l : list float) :
  np_ones_half n = Ret l -> length l = Z.to_nat n.
Proof.
  unfold np_ones_half. destruct (n <? 0); [discriminate|].
  intros H; injection H as <-. apply repeat_length.
Qed.

(** X9. With at least one memory slot, in every state of every run of
    [apply] both memory arrays have [memory_size] slots and the cursor is
    the index of one of them, so the writes of lines 144-147 are always
    in range. *)
Theorem cursor_stays_in_memory {commons : Commons}
    (psize isize : pyval) (bnds : bounds_arg) (f : individual -> float)
    (msize : Z) (prec mec mevals seed : pyval)
    (generators : option Z -> Rng) (fuel : nat)
    (cfg : config) (s0 s : state)
    (fit cfit cr fs : list float) (idx : list nat) :
  0 < msize ->
  initialise psize isize bnds f msize prec mec mevals seed generators fuel
  = Ret (cfg, s0) ->
  reaches cfg s0 s ->
  memory_ok cfg s /\
  returns_value (update_memory (memory_size cfg) (m_cr s) (m_f s) (k s)
                               fit cfit cr fs idx) = true.
Proof.
  intros Hms Hi Hr.
  assert (H0 : memory_ok cfg s0).
  { unfold initialise in Hi.
    ret_inv Hi as psz _. ret_inv Hi as isz _. ret_inv Hi as mev _.
    ret_inv Hi as u _. ret_inv Hi as b _. ret_inv Hi as sd _.
    destruct (init_population psz isz b (generators sd)) as [pop g].
    ret_inv Hi as mcr E1. ret_inv Hi as mf E2.
    ret_inv Hi as mi _. ret_inv Hi as bf _.
    injection Hi as <- <-.
    apply np_ones_half_length in E1, E2.
    unfold memory_ok; cbn. repeat split; assumption. }
  pose proof (reaches_memory_ok cfg s0 s Hr H0) as Hs.
  split; [exact Hs|].
  destruct Hs as (H1 & H2 & H3).
  apply update_memory_returns; lia.
Qed.

Lemma cursor_stays_in_memory_witness :
  exists s,
    reaches Scenario.cfg_A Scenario.start_A s /\
    k s = 1%nat /\
    memory_ok Scenario.cfg_A s.
Proof.
  eexists.
  match goal with
  | |- ?A /\ _ =>
      assert (Hr : A)
        by (eapply reaches_step with (fuel := 10%nat);
            [vm_compute; reflexivity | vm_compute; reflexivity | apply reaches_refl])
  end.
  split; [exact Hr|]. split; [reflexivity|].
  exact (proj1 (cursor_stays_in_memory _ _ _ _ 6 _ _ _ _ _ _ Scenario.cfg_A
                  Scenario.start_A _ [] [] [] [] [] eq_refl initialise_A Hr)).
Defined.

Lemma memory_written_at_cursor_only_witness :
  exists s',
    generation Scenario.cfg_D 10 Scenario.start_D = Ret s' /\
    nth 1 (m_f s') nan = 0.5%float.
Proof.
  eexists.
  match goal with
  | |- ?A /\ _ => assert (Hg : A) by (vm_compute; reflexivity)
  end.
  split; [exact Hg|].
  destruct (memory_written_at_cursor_only Scenario.cfg_D 10 Scenario.start_D _ 1 nan Hg
              ltac:(discriminate)) as (_ & _ & _ & H).
  rewrite H. reflexivity.
Defined.

Lemma cr_memory_slot_is_not_nan_witness :
  exists t s',
    variation Scenario.cfg_E 10 Scenario.start_E = Ret t /\
    generation Scenario.cfg_E 10 Scenario.start_E = Ret s' /\
    is_nan (nth 0 (m_cr s') nan) = false /\
    is_nan (nth 0 (m_f s') nan) = true.
Proof.
  eexists; eexists.
  match goal with
  | |- ?A /\ ?B /\ _ =>
      assert (Hv : A) by (vm_compute; reflexivity);
      assert (Hg : B) by (vm_compute; reflexivity)
  end.
  split; [exact Hv|]. split; [exact Hg|].
  split; [|vm_compute; reflexivity].
  exact (cr_memory_slot_is_not_nan Scenario.cfg_E 10 Scenario.start_E _ _ Hv
           ltac:(vm_compute; discriminate) Hg).
Defined.

Lemma cursor_advances_circularly_witness :
  exists t s',
    variation Scenario.cfg_A 10 Scenario.start_A = Ret t /\
    generation Scenario.cfg_A 10 Scenario.start_A = Ret s' /\
    Z.of_nat (k s') = 1.
Proof.
  eexists; eexists.
  match goal with
  | |- ?A /\ ?B /\ _ =>
      assert (Hv : A) by (vm_compute; reflexivity);
      assert (Hg : B) by (vm_compute; reflexivity)
  end.
  split; [exact Hv|]. split; [exact Hg|].
  rewrite (cursor_advances_circularly Scenario.cfg_A 10 Scenario.start_A _ _ Hv
             ltac:(vm_compute; discriminate) Hg ltac:(vm_compute; reflexivity)).
  vm_compute; reflexivity.
Defined.

(** ** The order of floats, from the specification of the primitives *)

Lemma SFcompare_refl (x : spec_float) :
  SFcompare x x = None \/ SFcompare x x = Some Eq.
Proof.
  destruct x as [s|s| |s m e]; cbn.
  - right; reflexivity.
  - right; destruct s; reflexivity.
  - left; reflexivity.
  - right. rewrite Z.compare_refl.
    change (Pos.compare_cont Eq m m) with (Pos.compare m m).
    rewrite Pos.compare_refl. destruct s; reflexivity.
Qed.

Lemma SFcompare_antisym (x y : spec_float) (c : comparison) :
  SFcompare x y = Some c -> SFcompare y x = Some (CompOpp c).
Proof.
  destruct x as [s1|s1| |s1 m1 e1], y as [s2|s2| |s2 m2 e2]; cbn;
    try discriminate;
    try (intros H; injection H as <-; destruct s1; try destruct s2; reflexivity);
    try (intros H; injection H as <-; destruct s2; reflexivity).
  intros H; injection H as <-.
  change (Pos.compare_cont Eq m1 m2) with (Pos.compare m1 m2).
  change (Pos.compare_cont Eq m2 m1) with (Pos.compare m2 m1).
  rewrite (Z.compare_antisym e1 e2), (Pos.compare_antisym m1 m2).
  destruct s1, s2; try reflexivity;
    destruct (e1 ?= e2); cbn; try reflexivity;
    destruct (m1 ?= m2)%positive; reflexivity.
Qed.

Lemma SFcompare_lt_trans (x y z : spec_float) :
  SFcompare x y = Some Lt -> SFcompare y z = Some Lt -> SFcompare x z = Some Lt.
Proof.
  destruct x as [s1|s1| |s1 m1 e1], y as [s2|s2| |s2 m2 e2], z as [s3|s3| |s3 m3 e3];
    cbn; try discriminate;
    try (destruct s1; try discriminate; destruct s2; try discriminate;
         destruct s3; try discriminate; reflexivity);
    try (destruct s1; try discriminate; destruct s3; try discriminate;
         destruct s2; try discriminate; reflexivity);
    try (destruct s2; try discriminate; destruct s3; try discriminate;
         destruct s1; try discriminate; reflexivity);
    try (destruct s1; try discriminate; destruct s2; discriminate || reflexivity);
    try (destruct s2; try discriminate; destruct s3; discriminate || reflexivity);
    try (destruct s1; try discriminate; destruct s3; discriminate || reflexivity);
    try (destruct s1; discriminate || reflexivity);
    try (destruct s2; discriminate || reflexivity);
    try (destruct s3; discriminate || reflexivity).
  all: change (Pos.compare_cont Eq m1 m2) with (Pos.compare m1 m2);
    change (Pos.compare_cont Eq m2 m3) with (Pos.compare m2 m3);
    change (Pos.compare_cont Eq m1 m3) with (Pos.compare m1 m3).
  all: destruct s1, s2, s3; try discriminate; try reflexivity;
    intros H1 H2; f_equal;
    destruct (Z.compare_spec e1 e2) as [E12|E12|E12]; try discriminate;
    destruct (Z.compare_spec e2 e3) as [E23|E23|E23]; try discriminate;
    destruct (Z.compare_spec e1 e3) as [E13|E13|E13]; try lia; try reflexivity;
    injection H1 as H1; injection H2 as H2;
    try (apply -> Pos.compare_lt_iff in H1);
    try (apply -> Pos.compare_lt_iff in H2);
    try (apply CompOpp_iff in H1; cbn in H1; apply -> Pos.compare_gt_iff in H1);
    try (apply CompOpp_iff in H2; cbn in H2; apply -> Pos.compare_gt_iff in H2);
    try (apply Pos.compare_lt_iff; lia);
    try (apply CompOpp_iff; cbn; apply Pos.compare_gt_iff; lia).
Qed.

Lemma is_nan_spec (x : float) : is_nan x = true <-> Prim2SF x = S754_nan.
Proof.
  unfold is_nan. rewrite eqb_spec. unfold SFeqb.
  destruct (SFcompare_refl (Prim2SF x)) as [H|H]; rewrite H; cbn.
  - split; [intros _|reflexivity].
    destruct (Prim2SF x) as [s|s| |s m e]; cbn in H; try discriminate; reflexivity.
  - split; [discriminate|]. intros E. rewrite E in H. discriminate.
Qed.

Lemma ltb_nan_l (a b : float) : is_nan a = true -> (a <? b)%float = false.
Proof.
  intros H. apply is_nan_spec in H. rewrite ltb_spec, H. reflexivity.
Qed.

Lemma ltb_nan_r (a b : float) : is_nan b = true -> (a <? b)%float = false.
Proof.
  intros H. apply is_nan_spec in H. rewrite ltb_spec, H.
  unfold SFltb. destruct (Prim2SF a); reflexivity.
Qed.

Lemma ltb_irrefl (a : float) : (a <? a)%float = false.
Proof.
  rewrite ltb_spec. unfold SFltb.
  destruct (SFcompare_refl (Prim2SF a)) as [H|H]; rewrite H; reflexivity.
Qed.

Lemma ltb_asym (a b : float) : (a <? b)%float = true -> (b <? a)%float = false.
Proof.
  rewrite !ltb_spec. unfold SFltb.
  destruct (SFcompare (Prim2SF a) (Prim2SF b)) as [[| |]|] eqn:E; try discriminate.
  apply SFcompare_antisym in E. rewrite E. reflexivity.
Qed.

Lemma ltb_trans (a b c : float) :
  (a <? b)%float = true -> (b <? c)%float = true -> (a <? c)%float = true.
Proof.
  rewrite !ltb_spec. unfold SFltb.
  destruct (SFcompare (Prim2SF a) (Prim2SF b)) as [[| |]|] eqn:E1; try discriminate.
  destruct (SFcompare (Prim2SF b) (Prim2SF c)) as [[| |]|] eqn:E2; try discriminate.
  rewrite (SFcompare_lt_trans _ _ _ E1 E2). reflexivity.
Qed.

Lemma leb_not_gt (a b : float) : (a <=? b)%float = true -> (b <? a)%float = false.
Proof.
  rewrite leb_spec, ltb_spec. unfold SFleb, SFltb.
  destruct (SFcompare (Prim2SF a) (Prim2SF b)) as [[| |]|] eqn:E; try discriminate;
    apply SFcompare_antisym in E; rewrite E; reflexivity.
Qed.

(** ** The shrink keeps the best *)

Lemma sorts_before_asym (a b : float) :
  sorts_before a b = true -> sorts_before b a = false.
Proof.
  unfold sorts_before.
  destruct (is_nan a) eqn:Ea; [discriminate|].
  destruct (is_nan b) eqn:Eb; [reflexivity|].
  apply ltb_asym.
Qed.

Lemma sorts_before_trans (a b c : float) :
  sorts_before a b = true -> sorts_before b c = true -> sorts_before a c = true.
Proof.
  unfold sorts_before.
  destruct (is_nan a) eqn:Ea; [discriminate|].
  destruct (is_nan b) eqn:Eb; [discriminate|].
  destruct (is_nan c) eqn:Ec; [reflexivity|].
  apply ltb_trans.
Qed.

Section Argsort.

Variable fit : list float.

Lemma insert_index_perm (i : nat) (l : list nat) :
  Permutation (insert_index fit i l) (i :: l).
Proof.
  induction l as [|j l IH]; cbn [insert_index]; [reflexivity|].
  destruct (sorts_before (nth i fit nan) (nth j fit nan)); [reflexivity|].
  rewrite IH. apply perm_swap.
Qed.

Lemma insert_index_sorted (i : nat) (l : list nat) :
  StronglySorted (not_after fit) l -> StronglySorted (not_after fit) (insert_index fit i l).
Proof.
  induction l as [|j l IH]; intros Hs; cbn [insert_index].
  - constructor; constructor.
  - inversion Hs as [|? ? Hl Hj]; subst.
    destruct (sorts_before (nth i fit nan) (nth j fit nan)) eqn:E.
    + constructor; [exact Hs|].
      constructor; [apply sorts_before_asym; exact E|].
      rewrite Forall_forall in Hj |- *. intros x Hx. specialize (Hj x Hx).
      unfold not_after in *.
      destruct (sorts_before (nth x fit nan) (nth i fit nan)) eqn:Ex; [|reflexivity].
      rewrite (sorts_before_trans _ _ _ Ex E) in Hj. discriminate.
    + constructor; [apply IH; exact Hl|].
      rewrite Forall_forall in Hj |- *. intros x Hx.
      apply (Permutation_in _ (insert_index_perm i l)) in Hx.
      destruct Hx as [<-|Hx]; [exact E | apply Hj; exact Hx].
Qed.

Lemma fold_insert_perm (l acc : list nat) :
  Permutation (fold_left (fun a i => insert_index fit i a) l acc) (acc ++ l).
Proof.
  revert acc; induction l as [|i l IH]; intros acc; cbn [fold_left].
  - rewrite app_nil_r. reflexivity.
  - rewrite IH, insert_index_perm. apply Permutation_middle.
Qed.

Lemma fold_insert_sorted (l acc : list nat) :
  StronglySorted (not_after fit) acc ->
  StronglySorted (not_after fit) (fold_left (fun a i => insert_index fit i a) l acc).
Proof.
  revert acc; induction l as [|i l IH]; intros acc Hs; cbn [fold_left]; [exact Hs|].
  apply IH, insert_index_sorted, Hs.
Qed.

(** [np.argsort] returns every index once, in an order in which no
    entry sorts strictly before an earlier one. *)
Lemma np_argsort_perm : Permutation (np_argsort fit) (seq 0 (length fit)).
Proof. unfold np_argsort. apply (fold_insert_perm _ []). Qed.

Lemma np_argsort_sorted : StronglySorted (not_after fit) (np_argsort fit).
Proof. unfold np_argsort. apply fold_insert_sorted. constructor. Qed.

Lemma np_argsort_in (i : nat) : In i (np_argsort fit) -> (i < length fit)%nat.
Proof.
  intros H. apply (Permutation_in _ np_argsort_perm) in H.
  apply in_seq in H. lia.
Qed.

Lemma sorted_split (l1 l2 : list nat) (i j : nat) :
  StronglySorted (not_after fit) (l1 ++ l2) -> In i l1 -> In j l2 -> not_after fit i j.
Proof.
  induction l1 as [|a l1 IH]; intros Hs Hi Hj; [contradiction|].
  cbn in Hs. inversion Hs as [|? ? Hl Ha]; subst.
  destruct Hi as [<-|Hi].
  - rewrite Forall_forall in Ha. apply Ha. apply in_or_app. right; exact Hj.
  - apply IH; assumption.
Qed.

End Argsort.

Lemma py_take_split {A : Type} (n : Z) (xs : list A) :
  exists m, py_take n xs = firstn m xs /\
            (0 <= n -> m = Z.to_nat n).
Proof.
  unfold py_take. destruct (0 <=? n) eqn:E.
  - exists (Z.to_nat n). split; [reflexivity | intros; reflexivity].
  - exists (Z.to_nat (Z.of_nat (length xs) + n)). split; [reflexivity|].
    apply Z.leb_gt in E. lia.
Qed.

(** X15. When the population is shrunk to a non-negative target, the
    survivors are individuals of the population at distinct positions,
    each with its own fitness, as many as the target allows, and no
    discarded individual has a fitness that sorts strictly before a
    survivor's (smaller first, NaN last). *)
Theorem shrink_keeps_the_best (init mx n psz : Z) (pop : list individual)
    (fit : list float) (k : nat)
    (psz' : Z) (pop' : list individual) (fit' : list float) (k' : nat) :
  shrink init mx n psz pop fit k = Ret (psz', pop', fit', k') ->
  psz' < psz ->
  0 <= psz' ->
  exists kept dropped,
    Permutation (kept ++ dropped) (seq 0 (length fit)) /\
    length kept = Nat.min (Z.to_nat psz') (length fit) /\
    pop' = take_indexes [] pop kept /\
    fit' = take_indexes nan fit kept /\
    (forall i j, In i kept -> In j dropped ->
                 sorts_before (nth j fit nan) (nth i fit nan) = false).
Proof.
  intros H Hlt Hnn.
  unfold shrink in H. ret_inv H as target Et.
  destruct (target <? psz) eqn:E.
  - injection H as <- <- <- _.
    destruct (py_take_split target (np_argsort fit)) as (m & Hm & Hm').
    specialize (Hm' Hnn). rewrite Hm.
    exists (firstn m (np_argsort fit)), (skipn m (np_argsort fit)).
    split; [rewrite firstn_skipn; apply np_argsort_perm|].
    split.
    { rewrite length_firstn, (Permutation_length (np_argsort_perm fit)), length_seq.
      rewrite Hm'. reflexivity. }
    split; [reflexivity|]. split; [reflexivity|].
    intros i j Hi Hj.
    apply (sorted_split fit (firstn m (np_argsort fit)) (skipn m (np_argsort fit)));
      try assumption.
    rewrite firstn_skipn. apply np_argsort_sorted.
  - injection H as <- _ _ _. lia.
Qed.

Lemma shrink_keeps_the_best_witness :
  exists kept dropped,
    Permutation (kept ++ dropped) (seq 0 3) /\
    length kept = 2%nat /\
    take_indexes [] [[3]; [1]; [2]]%float kept = [[1]; [2]]%float.
Proof.
  assert (H : shrink 6 4 8 3 [[3]; [1]; [2]]%float [9; 1; 4]%float 0
              = Ret (2, [[1]; [2]]%float, [1; 4]%float, 0%nat))
    by (vm_compute; reflexivity).
  destruct (shrink_keeps_the_best _ _ _ _ _ _ _ _ _ _ _ H ltac:(lia) ltac:(lia))
    as (kept & dropped & H1 & H2 & H3 & _).
  exists kept, dropped. split; [exact H1|]. split; [exact H2|].
  symmetry; exact H3.
Defined.

(** ** Population and fitness stay paired *)

Lemma assign_at_length (d : float) (xs ys : list float) (idx : list nat) :
  length (assign_at d xs ys idx) = length xs.
Proof.
  unfold assign_at. revert xs; induction idx as [|j idx IH]; intros xs; cbn [fold_left].
  - reflexivity.
  - rewrite IH. apply set_nth_length.
Qed.

Lemma assign_at_nth (d : float) (xs ys : list float) (idx : list nat) (i : nat) :
  (i < length xs)%nat ->
  nth i (assign_at d xs ys idx) d =
  if existsb (Nat.eqb i) idx then nth i ys d else nth i xs d.
Proof.
  unfold assign_at. revert xs; induction idx as [|j idx IH]; intros xs Hi; cbn [fold_left existsb].
  - reflexivity.
  - rewrite IH by (rewrite set_nth_length; exact Hi).
    destruct (existsb (Nat.eqb i) idx); [rewrite orb_true_r; reflexivity|].
    rewrite orb_false_r.
    destruct (Nat.eqb i j) eqn:E.
    + apply Nat.eqb_eq in E; subst j. apply set_nth_same; exact Hi.
    + apply Nat.eqb_neq in E. apply set_nth_other; exact E.
Qed.

Lemma success_indexes_existsb (fit cfit : list float) (i : nat) :
  (i < length fit)%nat ->
  existsb (Nat.eqb i) (success_indexes fit cfit)
  = (nth i cfit nan <=? nth i fit nan)%float.
Proof.
  intros Hi.
  destruct (nth i cfit nan <=? nth i fit nan)%float eqn:E.
  - apply existsb_exists. exists i. split; [|apply Nat.eqb_refl].
    apply success_indexes_spec. split; assumption.
  - destruct (existsb (Nat.eqb i) (success_indexes fit cfit)) eqn:Ex; [|reflexivity].
    apply existsb_exists in Ex. destruct Ex as (j & Hj & Hij).
    apply Nat.eqb_eq in Hij; subst j.
    apply success_indexes_spec in Hj. destruct Hj as [_ Hj]. congruence.
Qed.

Lemma replace_at_length (pop crossed : list individual) (fit cfit : list float) :
  length (replace_at pop crossed fit cfit) = length pop.
Proof.
  revert crossed fit cfit; induction pop as [|x xs IH]; intros crossed fit cfit;
    [reflexivity|].
  destruct crossed as [|u us]; [reflexivity|].
  destruct fit as [|fx fxs]; [reflexivity|].
  destruct cfit as [|fu fus]; [reflexivity|].
  cbn [replace_at length]. rewrite IH. reflexivity.
Qed.

(** After selection and line 152 the fitness array is that of the new
    population. *)
Lemma selection_keeps_aligned (func : individual -> float)
    (pop crossed pop' : list individual) (idx : list nat) :
  selection pop crossed (apply_fitness pop func) (apply_fitness crossed func)
  = Ret (pop', idx) ->
  assign_at nan (apply_fitness pop func) (apply_fitness crossed func) idx
  = apply_fitness pop' func.
Proof.
  intros H. apply selection_inv in H.
  destruct H as (Hc & Hf & Hcf & -> & ->).
  unfold apply_fitness in *.
  apply (nth_ext _ _ nan nan).
  - rewrite assign_at_length, !length_map, replace_at_length. reflexivity.
  - intros i Hi. rewrite assign_at_length, length_map in Hi.
    rewrite assign_at_nth by (rewrite length_map; exact Hi).
    rewrite success_indexes_existsb by (rewrite length_map; exact Hi).
    rewrite (nth_map_lt func (replace_at pop crossed (map func pop) (map func crossed))
               i nan []) by (rewrite replace_at_length; exact Hi).
    rewrite replace_at_nth by (assumption || lia).
    destruct (nth i (map func crossed) nan <=? nth i (map func pop) nan)%float.
    + apply nth_map_lt. lia.
    + apply nth_map_lt. exact Hi.
Qed.

Lemma take_indexes_map (func : individual -> float) (pop : list individual)
    (idx : list nat) :
  Forall (fun i => (i < length pop)%nat) idx ->
  take_indexes nan (map func pop) idx = map func (take_indexes [] pop idx).
Proof.
  intros H. unfold take_indexes. rewrite map_map.
  apply map_ext_in. intros i Hi.
  rewrite Forall_forall in H. apply nth_map_lt. apply H; exact Hi.
Qed.

Lemma py_take_incl {A : Type} (n : Z) (xs : list A) (x : A) :
  In x (py_take n xs) -> In x xs.
Proof.
  destruct (py_take_split n xs) as (m & -> & _).
  intros H. rewrite <- (firstn_skipn m xs). apply in_or_app. left; exact H.
Qed.

Lemma shrink_keeps_aligned (func : individual -> float)
    (init mx n psz : Z) (pop : list individual) (k : nat)
    (psz' : Z) (pop' : list individual) (fit' : list float) (k' : nat) :
  shrink init mx n psz pop (apply_fitness pop func) k = Ret (psz', pop', fit', k') ->
  fit' = apply_fitness pop' func /\
  (forall x, In x pop' -> In x pop).
Proof.
  unfold shrink; intros H. ret_inv H as target Et.
  destruct (target <? psz).
  - injection H as _ <- <- _.
    assert (Hb : Forall (fun i => (i < length pop)%nat)
                   (py_take target (np_argsort (apply_fitness pop func)))).
    { apply Forall_forall. intros i Hi. apply py_take_incl in Hi.
      apply np_argsort_in in Hi. unfold apply_fitness in Hi.
      rewrite length_map in Hi. exact Hi. }
    split.
    + unfold apply_fitness at 1 3. apply take_indexes_map. exact Hb.
    + intros x Hx. unfold take_indexes in Hx. apply in_map_iff in Hx.
      destruct Hx as (i & <- & Hi). rewrite Forall_forall in Hb.
      apply nth_In. apply Hb; exact Hi.
  - injection H as _ <- <- _. split; [reflexivity | intros x Hx; exact Hx].
Qed.

Lemma replace_at_in (pop crossed : list individual) (fit cfit : list float)
    (x : individual) :
  In x (replace_at pop crossed fit cfit) -> In x pop \/ In x crossed.
Proof.
  revert crossed fit cfit; induction pop as [|p pop IH]; intros crossed fit cfit H;
    [contradiction|].
  destruct crossed as [|u us]; [left; exact H|].
  destruct fit as [|fx fxs]; [left; exact H|].
  destruct cfit as [|fu fus]; [left; exact H|].
  cbn [replace_at] in H. destruct H as [H|H].
  - destruct (fu <=? fx)%float; subst x; [right | left]; left; reflexivity.
  - apply IH in H. destruct H as [H|H]; [left | right]; right; exact H.
Qed.

Section Pairing.

Context {commons : Commons}.
Variable cfg : config.

Lemma variation_inv (fuel : nat) (s : state) (t : trials) :
  variation cfg fuel s = Ret t ->
  t_c_fitness t = apply_fitness (t_crossed t) (func cfg) /\
  selection (population s) (t_crossed t) (fitness s) (t_c_fitness t)
  = Ret (t_population t, t_indexes t) /\
  0 <= population_size s.
Proof.
  unfold variation; intros H.
  ret_inv H as [[cr f] g] Es.
  destruct (current_to_pbest_mutation _ _ _ _ _ _) as [mutated g2].
  destruct (crossover _ _ _ _) as [crossed g3].
  ret_inv H as [pop' idx] Esel.
  injection H as <-. cbn.
  split; [reflexivity|]. split; [exact Esel|].
  unfold sample_parameters in Es. ret_inv Es as [r g1] Ec.
  unfold np_random_choice in Ec.
  destruct (population_size s <? 0) eqn:En; [discriminate|].
  apply Z.ltb_ge in En. exact En.
Qed.

(** One generation keeps population and fitness paired, and makes the
    population out of parents and trials only. *)
Lemma generation_aligned (fuel : nat) (s s' : state) (t : trials) :
  aligned cfg s ->
  variation cfg fuel s = Ret t ->
  generation cfg fuel s = Ret s' ->
  aligned cfg s' /\
  (forall x, In x (population s') -> In x (population s) \/ In x (t_crossed t)).
Proof.
  unfold aligned; intros Ha Hv Hg.
  assert (Hu : update cfg s t = Ret s')
    by (unfold generation in Hg; rewrite Hv in Hg; exact Hg).
  apply variation_inv in Hv. destruct Hv as (Hc & Hsel & _).
  rewrite Ha, Hc in Hsel.
  pose proof (selection_keeps_aligned _ _ _ _ _ Hsel) as Hfit.
  apply update_inv in Hu.
  destruct Hu as (a' & mcr' & mf' & k1 & g & psz & pop & fit & k2 & cd & bf & fh
                  & _ & Es & _ & ->).
  cbn [fitness population].
  rewrite Ha, Hc, Hfit in Es.
  apply shrink_keeps_aligned in Es. destruct Es as [-> Hin].
  split; [reflexivity|].
  intros x Hx. apply Hin in Hx.
  apply selection_inv in Hsel. destruct Hsel as (_ & _ & _ & E & _).
  rewrite E in Hx. apply replace_at_in in Hx. exact Hx.
Qed.

Lemma reaches_aligned (s s' : state) :
  reaches cfg s s' -> aligned cfg s -> aligned cfg s'.
Proof.
  induction 1 as [s|fuel s s1 s2 _ Hg _ IH]; intros Hs; [exact Hs|].
  apply IH.
  destruct (generation_inv cfg fuel s s1 Hg) as (t & Hv & _).
  apply (generation_aligned fuel s s1 t Hs Hv Hg).
Qed.

End Pairing.

Lemma initialise_aligned {commons : Commons}
    (psize isize : pyval) (bnds : bounds_arg) (f : individual -> float)
    (msize : Z) (prec mec mevals seed : pyval)
    (generators : option Z -> Rng) (fuel : nat) (cfg : config) (s : state) :
  initialise psize isize bnds f msize prec mec mevals seed generators fuel
  = Ret (cfg, s) ->
  aligned cfg s /\ func cfg = f.
Proof.
  unfold initialise; intros Hi.
  ret_inv Hi as psz _. ret_inv Hi as isz _. ret_inv Hi as mev _.
  ret_inv Hi as u _. ret_inv Hi as b _. ret_inv Hi as sd _.
  destruct (init_population psz isz b (generators sd)) as [pop g].
  ret_inv Hi as mcr _. ret_inv Hi as mf _.
  ret_inv Hi as mi _. ret_inv Hi as bf _.
  injection Hi as <- <-. split; reflexivity.
Qed.

(** X12. In every state of every run of [apply] the fitness array is
    the objective evaluated on the population, position by position; and
    the population after a generation consists of individuals of the
    population before it and of that generation's trials. *)
Theorem fitness_is_objective_of_population {commons : Commons}
    (psize isize : pyval) (bnds : bounds_arg) (f : individual -> float)
    (msize : Z) (prec mec mevals seed : pyval)
    (generators : option Z -> Rng) (fuel0 fuel : nat)
    (cfg : config) (s0 s s' : state) (t : trials) :
  initialise psize isize bnds f msize prec mec mevals seed generators fuel0
  = Ret (cfg, s0) ->
  reaches cfg s0 s ->
  variation cfg fuel s = Ret t ->
  generation cfg fuel s = Ret s' ->
  fitness s = map f (population s) /\
  fitness s' = map f (population s') /\
  (forall x, In x (population s') -> In x (population s) \/ In x (t_crossed t)).
Proof.
  intros Hi Hr Hv Hg.
  apply initialise_aligned in Hi. destruct Hi as [H0 Hf].
  pose proof (reaches_aligned cfg s0 s Hr H0) as Hs.
  destruct (generation_aligned cfg fuel s s' t Hs Hv Hg) as [Hs' Hin].
  unfold aligned, apply_fitness in Hs, Hs'. rewrite Hf in Hs, Hs'.
  split; [exact Hs|]. split; [exact Hs' | exact Hin].
Qed.

Lemma fitness_is_objective_of_population_witness :
  exists t s',
    variation Scenario.cfg_D 10 Scenario.start_D = Ret t /\
    generation Scenario.cfg_D 10 Scenario.start_D = Ret s' /\
    fitness s' = map Scenario.sphere (population s').
Proof.
  eexists; eexists.
  match goal with
  | |- ?A /\ ?B /\ _ =>
      assert (Hv : A) by (vm_compute; reflexivity);
      assert (Hg : B) by (vm_compute; reflexivity)
  end.
  split; [exact Hv|]. split; [exact Hg|].
  exact (proj1 (proj2 (fitness_is_objective_of_population _ _ _ _ _ _ _ _ _ _ _ 10
                         Scenario.cfg_D Scenario.start_D Scenario.start_D _ _
                         initialise_D (reaches_refl _ _) Hv Hg))).
Defined.

(** ** What [apply] returns *)

Lemma argmin_from_spec (pre xs : list float) (best : nat) :
  (best < length pre)%nat ->
  (forall y, In y pre -> (y <? nth best pre nan)%float = false) ->
  let r := argmin_from best (nth best pre nan) (length pre) xs in
  (r < length (pre ++ xs))%nat /\
  (forall y, In y (pre ++ xs) -> (y <? nth r (pre ++ xs) nan)%float = false).
Proof.
  revert pre best; induction xs as [|x xs IH]; intros pre best Hb Hmin; cbn [argmin_from].
  - rewrite app_nil_r. split; assumption.
  - set (bv := nth best pre nan) in *.
    destruct (is_nan bv) eqn:En.
    + cbn zeta. split; [rewrite length_app; lia|].
      intros y _. rewrite app_nth1 by exact Hb. apply ltb_nan_r; exact En.
    + assert (Hlen : length (pre ++ [x]) = S (length pre))
        by (rewrite length_app; cbn; lia).
      assert (Hx : nth (length pre) (pre ++ [x]) nan = x)
        by (rewrite app_nth2 by lia; rewrite Nat.sub_diag; reflexivity).
      replace (pre ++ x :: xs) with ((pre ++ [x]) ++ xs)
        by (rewrite <- app_assoc; reflexivity).
      destruct (is_nan x || (x <? bv)%float)%bool eqn:E.
      * specialize (IH (pre ++ [x]) (length pre)).
        rewrite Hx, Hlen in IH. apply IH; [lia|].
        intros y Hy. apply in_app_or in Hy. destruct Hy as [Hy|[<-|[]]].
        -- apply orb_true_iff in E. destruct E as [E|E].
           ++ apply ltb_nan_r; exact E.
           ++ destruct (y <? x)%float eqn:Eyx; [|reflexivity].
              specialize (Hmin y Hy).
              rewrite (ltb_trans _ _ _ Eyx E) in Hmin. discriminate.
        -- apply ltb_irrefl.
      * apply orb_false_iff in E. destruct E as [_ E].
        specialize (IH (pre ++ [x]) best).
        rewrite (app_nth1 pre [x] nan Hb), Hlen in IH. fold bv in IH.
        apply IH; [lia|].
        intros y Hy. apply in_app_or in Hy. destruct Hy as [Hy|[<-|[]]].
        -- apply Hmin; exact Hy.
        -- exact E.
Qed.

(** [np.argmin] returns a position of the array, and no entry is
    strictly smaller than the one at that position. *)
Lemma np_argmin_spec (xs : list float) (b : nat) :
  np_argmin xs = Ret b ->
  (b < length xs)%nat /\
  (forall y, In y xs -> (y <? nth b xs nan)%float = false).
Proof.
  destruct xs as [|x xs]; [discriminate|].
  cbn [np_argmin]. intros H; injection H as <-.
  apply (argmin_from_spec [x] xs 0); [cbn; lia|].
  intros y [<-|[]]. apply ltb_irrefl.
Qed.

(** X13. When [apply] returns, the individual it returns is a member of
    the final population, the fitness it returns is the objective at that
    individual, no member of the final population has a strictly smaller
    objective value, and the history is returned exactly when
    [return_history] is set. *)
Theorem apply_returns_best_of_final_population {commons : Commons}
    (psize isize : pyval) (bnds : bounds_arg) (f : individual -> float)
    (msize : Z) (prec mec mevals seed : pyval) (return_history : bool)
    (generators : option Z -> Rng) (gens fuel : nat)
    (x : individual) (fx : float) (h : option (list float)) :
  apply psize isize bnds f msize prec mec mevals seed return_history
        generators gens fuel = Ret (x, fx, h) ->
  exists cfg s0 s,
    initialise psize isize bnds f msize prec mec mevals seed generators fuel
    = Ret (cfg, s0) /\
    run cfg gens fuel s0 = Ret s /\
    In x (population s) /\
    fx = f x /\
    (forall y, In y (population s) -> (f y <? fx)%float = false) /\
    h = (if return_history then Some (fitness_history s) else None).
Proof.
  unfold apply; intros H.
  ret_inv H as [cfg s0] Hi. ret_inv H as s Hrun. ret_inv H as b Hb.
  injection H as <- <- <-.
  exists cfg, s0, s. split; [exact Hi|]. split; [exact Hrun|].
  pose proof (initialise_aligned _ _ _ _ _ _ _ _ _ _ _ _ _ Hi) as [H0 Hf].
  apply run_reaches in Hrun. destruct Hrun as [Hr _].
  pose proof (reaches_aligned cfg s0 s Hr H0) as Hs.
  unfold aligned, apply_fitness in Hs. rewrite Hf in Hs.
  apply np_argmin_spec in Hb. destruct Hb as [Hlt Hmin].
  rewrite Hs in Hlt, Hmin |- *. rewrite length_map in Hlt.
  rewrite (nth_map_lt f (population s) b nan []) in Hmin |- * by exact Hlt.
  split; [apply nth_In; exact Hlt|].
  split; [reflexivity|].
  split; [|reflexivity].
  intros y Hy. apply Hmin. apply in_map; exact Hy.
Qed.

Lemma apply_returns_best_of_final_population_witness :
  exists cfg s0 s,
    initialise (PyInt 5) (PyInt 1) Scenario.wide Scenario.sphere 6 (PyFloat 1e-6)
               (PyInt 1) (PyInt 12) (PyInt 1) (Scenario.scripted Scenario.reals_G) 100
    = Ret (cfg, s0) /\
    run cfg 5 100 s0 = Ret s /\
    In [5%float] (population s) /\
    25%float = Scenario.sphere [5%float].
Proof.
  destruct (apply_returns_best_of_final_population _ _ _ _ _ _ _ _ _ _ _ _ _ _ _ _
              apply_G) as (cfg & s0 & s & H1 & H2 & H3 & H4 & _).
  exists cfg, s0, s. repeat split; assumption.
Defined.

(** ** The archive's contents *)

Lemma skipn_nth_cons {A : Type} (j : nat) (l : list A) (d : A) :
  (j < length l)%nat -> skipn j l = nth j l d :: skipn (S j) l.
Proof.
  revert j; induction l as [|a l IH]; intros [|j] H; cbn in H; try lia.
  - reflexivity.
  - cbn [skipn nth]. apply IH. lia.
Qed.

Lemma sample_from_perm {A : Type} (n : nat) (pool : list A) (g : Rng) :
  exists rest, Permutation pool (fst (sample_from n pool g) ++ rest).
Proof.
  revert pool g; induction n as [|n IH]; intros pool g; cbn [sample_from].
  - exists pool. reflexivity.
  - destruct pool as [|x pool]; [exists []; reflexivity|].
    destruct (next_py_int g) as [raw g1].
    set (j := (raw mod length (x :: pool))%nat).
    assert (Hj : (j < length (x :: pool))%nat)
      by (apply Nat.mod_upper_bound; cbn; discriminate).
    destruct (IH (firstn j (x :: pool) ++ skipn (S j) (x :: pool)) g1) as (rest & Hp).
    destruct (sample_from n _ g1) as [out g2]. cbn [fst] in Hp |- *.
    exists rest. cbn [app].
    rewrite <- Hp.
    rewrite <- (firstn_skipn j (x :: pool)) at 1.
    rewrite (skipn_nth_cons j (x :: pool) x Hj).
    symmetry. apply Permutation_middle.
Qed.

Section ArchiveProvenance.

Context {commons : Commons}.
Variable cfg : config.

(** X11. The archive after a generation is drawn, without repetition,
    from the archive before it followed by the trial vectors of that
    generation's success positions: nothing else enters the archive, and
    capacity enforcement only removes entries. *)
Theorem archive_is_drawn_from_winners (fuel : nat) (s s' : state) (t : trials) :
  variation cfg fuel s = Ret t ->
  generation cfg fuel s = Ret s' ->
  exists rest,
    Permutation (archive s ++ take_indexes [] (t_crossed t) (t_indexes t))
                (archive s' ++ rest).
Proof.
  intros Hv Hg.
  assert (Hu : update cfg s t = Ret s')
    by (unfold generation in Hg; rewrite Hv in Hg; exact Hg).
  apply update_inv in Hu.
  destruct Hu as (a' & mcr' & mf' & k1 & g & psz & pop & fit & k2 & cd & bf & fh
                  & Ea & _ & _ & ->).
  cbn [archive].
  assert (Hsame : take_indexes [] (t_population t) (t_indexes t)
                  = take_indexes [] (t_crossed t) (t_indexes t)).
  { unfold take_indexes. apply map_ext_in. intros i Hi.
    apply (variation_success_is_trial cfg fuel s t i Hv Hi). }
  unfold adapt in Ea. rewrite Hsame in Ea.
  destruct (0 <? length (t_indexes t))%nat.
  - ret_inv Ea as [a ga] E1. ret_inv Ea as [[x1 x2] x3] _.
    injection Ea as <- _ _ _ _.
    destruct (population_size s <? Z.of_nat (length _)).
    + unfold random_sample in E1.
      destruct (_ || _)%bool; [discriminate|].
      injection E1 as E1.
      destruct (sample_from_perm (Z.to_nat (population_size s))
                  (archive s ++ take_indexes [] (t_crossed t) (t_indexes t)) (t_rng t))
        as (rest & Hp).
      rewrite E1 in Hp. cbn [fst] in Hp. exists rest; exact Hp.
    + injection E1 as <- _. exists []. rewrite app_nil_r. reflexivity.
  - injection Ea as <- _ _ _ _. exists []. rewrite app_nil_r. reflexivity.
Qed.

End ArchiveProvenance.

Lemma archive_is_drawn_from_winners_witness :
  exists t s' rest,
    variation Scenario.cfg_A 10 Scenario.start_A = Ret t /\
    generation Scenario.cfg_A 10 Scenario.start_A = Ret s' /\
    Permutation (archive Scenario.start_A ++ take_indexes [] (t_crossed t) (t_indexes t))
                (archive s' ++ rest).
Proof.
  assert (Hv : exists t, variation Scenario.cfg_A 10 Scenario.start_A = Ret t)
    by (eexists; vm_compute; reflexivity).
  destruct Hv as [t Hv].
  assert (Hg : exists s', generation Scenario.cfg_A 10 Scenario.start_A = Ret s')
    by (eexists; vm_compute; reflexivity).
  destruct Hg as [s' Hg].
  destruct (archive_is_drawn_from_winners Scenario.cfg_A 10 Scenario.start_A s' t Hv Hg)
    as (rest & Hp).
  exists t, s', rest. repeat split; assumption.
Defined.

(** ** Counters, history and best fitness along a run *)

Section RunAccounting.

Context {commons : Commons}.
Variable cfg : config.

Lemma reaches_trans (s1 s2 s3 : state) :
  reaches cfg s1 s2 -> reaches cfg s2 s3 -> reaches cfg s1 s3.
Proof.
  induction 1 as [s|fuel s sa sb Hguard Hg _ IH]; intros H; [exact H|].
  eapply reaches_step; [exact Hguard | exact Hg | apply IH; exact H].
Qed.

(** A generation that returns started with [population_size >= 0]. *)
Lemma generation_size_nonneg (fuel : nat) (s s' : state) :
  generation cfg fuel s = Ret s' -> 0 <= population_size s.
Proof.
  intros Hg. destruct (generation_inv cfg fuel s s' Hg) as (t & Hv & _).
  apply variation_inv in Hv. apply Hv.
Qed.

(** What one generation does to the counters, the history and the best
    fitness. *)
Lemma generation_bookkeeping (fuel : nat) (s s' : state) :
  generation cfg fuel s = Ret s' ->
  exists m,
    np_min (fitness s') = Ret m /\
    fitness_history s' = fitness_history s ++ [m] /\
    current_generation s' = current_generation s + 1 /\
    num_evals s' = num_evals s + population_size s /\
    best_fitness s' = (if (m <? best_fitness s)%float then m else best_fitness s).
Proof.
  intros Hg. apply generation_inv in Hg; destruct Hg as (t & _ & Hu).
  apply update_inv in Hu.
  destruct Hu as (a' & mcr' & mf' & k1 & g & psz & pop & fit & k2 & cd & bf & fh
                  & _ & _ & Em & ->).
  apply monitor_inv in Em. destruct Em as (m & Hm & _ & -> & ->).
  exists m. repeat split; try reflexivity. exact Hm.
Qed.

Lemma generation_best_fitness (fuel : nat) (s s' : state) :
  generation cfg fuel s = Ret s' ->
  (best_fitness s' = best_fitness s
   \/ (best_fitness s' <? best_fitness s)%float = true) /\
  exists m, np_min (fitness s') = Ret m /\ (m <? best_fitness s')%float = false.
Proof.
  intros Hg. apply generation_bookkeeping in Hg.
  destruct Hg as (m & Hm & _ & _ & _ & ->).
  destruct (m <? best_fitness s)%float eqn:E.
  - split; [right; exact E|]. exists m; split; [exact Hm | apply ltb_irrefl].
  - split; [left; reflexivity|]. exists m; split; [exact Hm | exact E].
Qed.

End RunAccounting.

(** X16. The history is append-only and has one entry per generation:
    in every state of a run of [apply] its length is the generation
    counter, a later state's history extends an earlier state's, and the
    entry a generation appends is the minimum of the fitness array at the
    end of that generation. *)
Theorem history_counts_generations {commons : Commons}
    (psize isize : pyval) (bnds : bounds_arg) (f : individual -> float)
    (msize : Z) (prec mec mevals seed : pyval)
    (generators : option Z -> Rng) (fuel0 fuel : nat)
    (cfg : config) (s0 s1 s2 s3 : state) :
  initialise psize isize bnds f msize prec mec mevals seed generators fuel0
  = Ret (cfg, s0) ->
  reaches cfg s0 s1 ->
  reaches cfg s1 s2 ->
  generation cfg fuel s2 = Ret s3 ->
  Z.of_nat (length (fitness_history s2)) = current_generation s2 /\
  (exists l, fitness_history s2 = fitness_history s1 ++ l) /\
  (exists m, np_min (fitness s3) = Ret m /\
             fitness_history s3 = fitness_history s2 ++ [m]).
Proof.
  intros Hi H01 H12 Hg.
  assert (Hcount : forall a b, reaches cfg a b ->
            Z.of_nat (length (fitness_history a)) = current_generation a ->
            Z.of_nat (length (fitness_history b)) = current_generation b).
  { intros a b Hr. induction Hr as [a|fu a a1 a2 _ Hga _ IH]; intros Ha; [exact Ha|].
    apply IH. apply generation_bookkeeping in Hga.
    destruct Hga as (m & _ & -> & -> & _).
    rewrite length_app. cbn [length]. lia. }
  assert (Hext : forall a b, reaches cfg a b ->
            exists l, fitness_history b = fitness_history a ++ l).
  { intros a b Hr. induction Hr as [a|fu a a1 a2 _ Hga _ IH].
    - exists []. rewrite app_nil_r. reflexivity.
    - destruct IH as (l & ->). apply generation_bookkeeping in Hga.
      destruct Hga as (m & _ & -> & _).
      exists ([m] ++ l). rewrite app_assoc. reflexivity. }
  split.
  - apply (Hcount s0 s2 (reaches_trans cfg s0 s1 s2 H01 H12)).
    unfold initialise in Hi.
    ret_inv Hi as psz _. ret_inv Hi as isz _. ret_inv Hi as mev _.
    ret_inv Hi as u _. ret_inv Hi as b _. ret_inv Hi as sd _.
    destruct (init_population psz isz b (generators sd)) as [pop g].
    ret_inv Hi as mcr _. ret_inv Hi as mf _.
    ret_inv Hi as mi _. ret_inv Hi as bf _.
    injection Hi as _ <-. reflexivity.
  - split; [apply Hext; exact H12|].
    apply generation_bookkeeping in Hg.
    destruct Hg as (m & Hm & Hh & _). exists m. split; assumption.
Qed.

Lemma history_counts_generations_witness :
  exists s3,
    generation Scenario.cfg_A 10 Scenario.start_A = Ret s3 /\
    Z.of_nat (length (fitness_history Scenario.start_A))
    = current_generation Scenario.start_A /\
    fitness_history s3 = [20.25%float].
Proof.
  eexists.
  match goal with
  | |- ?A /\ _ => assert (Hg : A) by (vm_compute; reflexivity)
  end.
  split; [exact Hg|].
  destruct (history_counts_generations _ _ _ _ _ _ _ _ _ _ _ 10 Scenario.cfg_A
              Scenario.start_A Scenario.start_A Scenario.start_A _
              initialise_A (reaches_refl _ _) (reaches_refl _ _) Hg)
    as (H1 & _ & _).
  split; [exact H1 | vm_compute; reflexivity].
Defined.

(** X17. Over a run of [apply] the best fitness never rises: in a later
    state it is the value of the earlier state or a strictly smaller one;
    and in every state it is not above the minimum of the current
    fitness array. *)
Theorem best_fitness_never_rises {commons : Commons}
    (psize isize : pyval) (bnds : bounds_arg) (f : individual -> float)
    (msize : Z) (prec mec mevals seed : pyval)
    (generators : option Z -> Rng) (fuel0 : nat)
    (cfg : config) (s0 s1 s2 : state) :
  initialise psize isize bnds f msize prec mec mevals seed generators fuel0
  = Ret (cfg, s0) ->
  reaches cfg s0 s1 ->
  reaches cfg s1 s2 ->
  (best_fitness s2 = best_fitness s1
   \/ (best_fitness s2 <? best_fitness s1)%float = true) /\
  (best_fitness s1 <? best_fitness s2)%float = false /\
  exists m, np_min (fitness s2) = Ret m /\ (m <? best_fitness s2)%float = false.
Proof.
  intros Hi H01 H12.
  assert (Hdown : forall a b, reaches cfg a b ->
            best_fitness b = best_fitness a
            \/ (best_fitness b <? best_fitness a)%float = true).
  { intros a b Hr. induction Hr as [a|fu a a1 a2 _ Hga _ IH]; [left; reflexivity|].
    apply generation_best_fitness in Hga. destruct Hga as [Hga _].
    destruct IH as [IH|IH], Hga as [Hga|Hga].
    - left; congruence.
    - right; rewrite IH; exact Hga.
    - right; rewrite <- Hga; exact IH.
    - right; apply (ltb_trans _ _ _ IH Hga). }
  assert (Hmin : forall a b, reaches cfg a b ->
            (exists m, np_min (fitness a) = Ret m /\ (m <? best_fitness a)%float = false) ->
            exists m, np_min (fitness b) = Ret m /\ (m <? best_fitness b)%float = false).
  { intros a b Hr. induction Hr as [a|fu a a1 a2 _ Hga _ IH]; intros Ha; [exact Ha|].
    apply IH. apply generation_best_fitness in Hga. apply Hga. }
  split; [apply Hdown; exact H12|].
  split.
  - destruct (Hdown s1 s2 H12) as [->|H]; [apply ltb_irrefl | apply ltb_asym; exact H].
  - apply (Hmin s0 s2 (reaches_trans cfg s0 s1 s2 H01 H12)).
    unfold initialise in Hi.
    ret_inv Hi as psz _. ret_inv Hi as isz _. ret_inv Hi as mev _.
    ret_inv Hi as u _. ret_inv Hi as b _. ret_inv Hi as sd _.
    destruct (init_population psz isz b (generators sd)) as [pop g].
    ret_inv Hi as mcr _. ret_inv Hi as mf _.
    ret_inv Hi as mi _. ret_inv Hi as bf Ebf.
    injection Hi as _ <-. cbn [fitness best_fitness].
    exists bf. split; [exact Ebf | apply ltb_irrefl].
Qed.

Lemma best_fitness_never_rises_witness :
  exists s2,
    reaches Scenario.cfg_A Scenario.start_A s2 /\
    best_fitness Scenario.start_A = 25%float /\
    best_fitness s2 = 20.25%float /\
    (best_fitness Scenario.start_A <? best_fitness s2)%float = false.
Proof.
  eexists.
  match goal with
  | |- ?A /\ _ =>
      assert (Hr : A)
        by (eapply reaches_step with (fuel := 10%nat);
            [vm_compute; reflexivity | vm_compute; reflexivity | apply reaches_refl])
  end.
  split; [exact Hr|]. split; [reflexivity|]. split; [reflexivity|].
  exact (proj1 (proj2 (best_fitness_never_rises _ _ _ _ _ _ _ _ _ _ _ Scenario.cfg_A
                         Scenario.start_A Scenario.start_A _
                         initialise_A (reaches_refl _ _) Hr))).
Defined.

(** X18. The evaluation counter of a run of [apply] starts at the
    initial population size, never decreases, and overruns the budget by
    less than one initial population; the countdown never goes below 0;
    and the loop is left only with the budget used up or the countdown at
    exactly 0. *)
Theorem evaluations_and_exit {commons : Commons}
    (psize isize : pyval) (bnds : bounds_arg) (f : individual -> float)
    (msize : Z) (prec mec mevals seed : pyval)
    (generators : option Z -> Rng) (gens fuel : nat)
    (cfg : config) (s0 s : state) :
  initialise psize isize bnds f msize prec mec mevals seed generators fuel
  = Ret (cfg, s0) ->
  run cfg gens fuel s0 = Ret s ->
  init_size cfg <= num_evals s < max_evals cfg + init_size cfg /\
  0 <= converge_countdown s /\
  (max_evals cfg <= num_evals s \/ converge_countdown s = 0).
Proof.
  intros Hi Hrun.
  apply initialise_start in Hi.
  destruct Hi as (_ & _ & Hp & Hn & Hinit & Hmax & Hcd & _).
  apply run_reaches in Hrun. destruct Hrun as [Hr Hq].
  assert (Hinv : forall a b, reaches cfg a b ->
            population_size a <= init_size cfg ->
            init_size cfg <= num_evals a < max_evals cfg + init_size cfg ->
            0 <= converge_countdown a ->
            init_size cfg <= num_evals b < max_evals cfg + init_size cfg /\
            0 <= converge_countdown b).
  { intros a b Hab. induction Hab as [a|fu a a1 a2 Hguard Hga _ IH];
      intros Hpa Hna Hca; [split; assumption|].
    pose proof (generation_population_size cfg fu a a1 Hga) as Hle.
    pose proof (generation_size_nonneg cfg fu a a1 Hga) as Hnn.
    pose proof (generation_countdown cfg fu a a1 Hga) as Hc.
    unfold loop_guard in Hguard. apply andb_true_iff in Hguard.
    destruct Hguard as [G1 G2]. apply Z.ltb_lt in G1, G2.
    apply generation_bookkeeping in Hga. destruct Hga as (m & _ & _ & _ & Hnum & _).
    apply IH; lia. }
  destruct (Hinv s0 s Hr ltac:(lia) ltac:(lia) ltac:(lia)) as [H1 H2].
  split; [exact H1|]. split; [exact H2|].
  unfold loop_guard in Hq. apply andb_false_iff in Hq.
  destruct Hq as [Hq|Hq]; apply Z.ltb_ge in Hq; [left; exact Hq | right; lia].
Qed.

Lemma evaluations_and_exit_witness :
  exists s,
    run (Scenario.cfg_G (PyFloat 1e-6)) 5 100 Scenario.start_G = Ret s /\
    num_evals s = 10 /\
    converge_countdown s = 0.
Proof.
  eexists.
  match goal with
  | |- ?A /\ _ => assert (Hr : A) by (vm_compute; reflexivity)
  end.
  split; [exact Hr|]. split; [vm_compute; reflexivity|].
  destruct (evaluations_and_exit _ _ _ _ _ _ _ _ _ _ 5 100
              (Scenario.cfg_G (PyFloat 1e-6)) Scenario.start_G _
              (initialise_G (PyFloat 1e-6)) Hr) as (_ & _ & [H|H]).
  - vm_compute in H. exfalso. apply H. reflexivity.
  - exact H.
Defined.

(** ** The population array and the variable [population_size] *)

Section PopulationLength.

Context {commons : Commons}.
Variable cfg : config.

Lemma generation_sized (fuel : nat) (s s' : state) :
  sized s -> generation cfg fuel s = Ret s' -> 0 <= population_size s' -> sized s'.
Proof.
  unfold sized; intros Hs Hg Hnn.
  destruct (generation_inv cfg fuel s s' Hg) as (t & Hv & Hu).
  apply variation_inv in Hv. destruct Hv as (_ & Hsel & _).
  apply selection_inv in Hsel. destruct Hsel as (_ & Hf & _ & Ep & _).
  apply update_inv in Hu.
  destruct Hu as (a' & mcr' & mf' & k1 & g & psz & pop & fit & k2 & cd & bf & fh
                  & _ & Es & _ & ->).
  cbn [population population_size] in *.
  unfold shrink in Es. ret_inv Es as target Et.
  destruct (target <? population_size s) eqn:E.
  - apply Z.ltb_lt in E. injection Es as <- <- _ _.
    unfold take_indexes. rewrite length_map.
    destruct (py_take_split target
                (np_argsort (assign_at nan (fitness s) (t_c_fitness t) (t_indexes t))))
      as (m & -> & Hm).
    rewrite (Hm Hnn), length_firstn,
      (Permutation_length (np_argsort_perm _)), length_seq, assign_at_length, Hf.
    lia.
  - injection Es as <- <- _ _. rewrite Ep, replace_at_length. exact Hs.
Qed.

Lemma reaches_sized (s s' : state) :
  reaches cfg s s' -> sized s -> 0 <= population_size s' -> sized s'.
Proof.
  induction 1 as [s|fuel s s1 s2 _ Hg Hr IH]; intros Hs Hnn; [exact Hs|].
  apply IH; [|exact Hnn].
  apply (generation_sized fuel s s1 Hs Hg).
  destruct Hr as [s1|fuel' s1 sa sb _ Hg' _]; [exact Hnn|].
  apply (generation_size_nonneg cfg fuel' s1 sa Hg').
Qed.

End PopulationLength.

(** X14. If the initialiser delivers [population_size] individuals, then
    in every state of a run of [apply] in which the variable
    [population_size] is not negative it is the number of individuals in
    the population, and the fitness array has that many entries. *)
Theorem population_size_is_length {commons : Commons}
    (psize isize : pyval) (bnds : bounds_arg) (f : individual -> float)
    (msize : Z) (prec mec mevals seed : pyval)
    (generators : option Z -> Rng) (fuel0 : nat)
    (cfg : config) (s0 s : state) :
  initialise psize isize bnds f msize prec mec mevals seed generators fuel0
  = Ret (cfg, s0) ->
  Z.of_nat (length (population s0)) = population_size s0 ->
  reaches cfg s0 s ->
  0 <= population_size s ->
  Z.of_nat (length (population s)) = population_size s /\
  length (fitness s) = length (population s).
Proof.
  intros Hi H0 Hr Hnn.
  split; [apply (reaches_sized cfg s0 s Hr H0 Hnn)|].
  apply initialise_aligned in Hi. destruct Hi as [Ha _].
  pose proof (reaches_aligned cfg s0 s Hr Ha) as Hs.
  unfold aligned, apply_fitness in Hs. rewrite Hs. apply length_map.
Qed.

Lemma population_size_is_length_witness :
  exists s,
    reaches Scenario.cfg_A Scenario.start_A s /\
    population_size s = 4 /\
    Z.of_nat (length (population s)) = population_size s.
Proof.
  eexists.
  match goal with
  | |- ?A /\ _ =>
      assert (Hr : A)
        by (eapply reaches_step with (fuel := 10%nat);
            [vm_compute; reflexivity | vm_compute; reflexivity | apply reaches_refl])
  end.
  split; [exact Hr|]. split; [reflexivity|].
  exact (proj1 (population_size_is_length _ _ _ _ _ _ _ _ _ _ _ Scenario.cfg_A
                  Scenario.start_A _ initialise_A eq_refl Hr ltac:(vm_compute; discriminate))).
Defined.

(** ** How many generations a run can make *)

Section GenerationCount.

Context {commons : Commons}.
Variable cfg : config.

(** A generation that returns worked on at least one individual:
    otherwise [np.min] of lines 166-168 has nothing to reduce. *)
Lemma generation_needs_an_individual (fuel : nat) (s s' : state) :
  sized s -> aligned cfg s -> generation cfg fuel s = Ret s' ->
  1 <= population_size s.
Proof.
  unfold sized, aligned; intros Hs Ha Hg.
  pose proof (generation_size_nonneg cfg fuel s s' Hg) as Hnn.
  destruct (Z.eq_dec (population_size s) 0) as [Hz|Hz]; [exfalso | lia].
  rewrite Hz in Hs. destruct (population s) as [|x pop] eqn:Ep; [|cbn in Hs; lia].
  cbn in Ha.
  destruct (generation_inv cfg fuel s s' Hg) as (t & _ & Hu).
  apply update_inv in Hu.
  destruct Hu as (a' & mcr' & mf' & k1 & g & psz & pop & fit & k2 & cd & bf & fh
                  & _ & Es & Em & _).
  apply monitor_inv in Em. destruct Em as (m & Hm & _).
  assert (Hlen : length fit = 0%nat).
  { unfold shrink in Es. ret_inv Es as target Et.
    pose proof (assign_at_length nan (fitness s) (t_c_fitness t) (t_indexes t)) as Hl.
    rewrite Ha in Hl. cbn in Hl.
    destruct (target <? population_size s).
    - injection Es as _ _ <- _. unfold take_indexes. rewrite length_map.
      destruct (py_take_split target
                  (np_argsort (assign_at nan (fitness s) (t_c_fitness t) (t_indexes t))))
        as (n & -> & _).
      rewrite length_firstn, (Permutation_length (np_argsort_perm _)), length_seq.
      rewrite Ha. lia.
    - injection Es as _ _ <- _. rewrite Ha. exact Hl. }
  destruct fit; [discriminate Hm | discriminate Hlen].
Qed.

Lemma reaches_cases (a b : state) :
  reaches cfg a b -> a = b \/ 0 <= population_size a.
Proof.
  intros Hr. destruct Hr as [a|fuel a a1 a2 _ Hg _]; [left; reflexivity|].
  right. apply (generation_size_nonneg cfg fuel a a1 Hg).
Qed.

Lemma reaches_generation_count (a b : state) :
  reaches cfg a b ->
  sized a -> aligned cfg a ->
  init_size cfg + current_generation a <= num_evals a ->
  current_generation a <= Z.max 0 (max_evals cfg - init_size cfg) ->
  init_size cfg + current_generation b <= num_evals b /\
  current_generation b <= Z.max 0 (max_evals cfg - init_size cfg).
Proof.
  induction 1 as [a|fuel a a1 a2 Hguard Hg Hr IH]; intros Hs Ha Hn Hc;
    [split; assumption|].
  pose proof (generation_needs_an_individual fuel a a1 Hs Ha Hg) as Hone.
  unfold loop_guard in Hguard. apply andb_true_iff in Hguard.
  destruct Hguard as [G1 _]. apply Z.ltb_lt in G1.
  pose proof (generation_bookkeeping cfg fuel a a1 Hg) as (m & _ & _ & Hgen & Hnum & _).
  assert (Hn1 : init_size cfg + current_generation a1 <= num_evals a1) by lia.
  assert (Hc1 : current_generation a1 <= Z.max 0 (max_evals cfg - init_size cfg)) by lia.
  destruct (reaches_cases a1 a2 Hr) as [<-|Hnn]; [split; assumption|].
  apply IH; try assumption.
  - apply (generation_sized cfg fuel a a1 Hs Hg Hnn).
  - destruct (generation_inv cfg fuel a a1 Hg) as (t & Hv & _).
    apply (generation_aligned cfg fuel a a1 t Ha Hv Hg).
Qed.

End GenerationCount.

(** X19. If the initialiser delivers [population_size] individuals, a
    run of [apply] makes at most [max_evals - population_size]
    generations (none if the budget does not exceed the population), and
    each generation costs at least one evaluation. *)
Theorem generations_are_bounded_by_the_budget {commons : Commons}
    (psize isize : pyval) (bnds : bounds_arg) (f : individual -> float)
    (msize : Z) (prec mec mevals seed : pyval)
    (generators : option Z -> Rng) (fuel0 : nat)
    (cfg : config) (s0 s : state) :
  initialise psize isize bnds f msize prec mec mevals seed generators fuel0
  = Ret (cfg, s0) ->
  Z.of_nat (length (population s0)) = population_size s0 ->
  reaches cfg s0 s ->
  0 <= current_generation s <= Z.max 0 (max_evals cfg - init_size cfg) /\
  init_size cfg + current_generation s <= num_evals s.
Proof.
  intros Hi H0 Hr.
  pose proof (initialise_aligned _ _ _ _ _ _ _ _ _ _ _ _ _ Hi) as [Ha _].
  pose proof (initialise_start _ _ _ _ _ _ _ _ _ _ _ _ _ Hi)
    as (_ & _ & _ & Hn & _).
  assert (Hgen : current_generation s0 = 0).
  { unfold initialise in Hi.
    ret_inv Hi as psz _. ret_inv Hi as isz _. ret_inv Hi as mev _.
    ret_inv Hi as u _. ret_inv Hi as b _. ret_inv Hi as sd _.
    destruct (init_population psz isz b (generators sd)) as [pop g].
    ret_inv Hi as mcr _. ret_inv Hi as mf _.
    ret_inv Hi as mi _. ret_inv Hi as bf _.
    injection Hi as _ <-. reflexivity. }
  destruct (reaches_generation_count cfg s0 s Hr H0 Ha ltac:(lia) ltac:(lia))
    as [H1 H2].
  split; [split; [|exact H2] | exact H1].
  assert (Hmono : current_generation s0 <= current_generation s).
  { clear -Hr. induction Hr as [a|fu a a1 a2 _ Hga _ IH]; [lia|].
    apply generation_bookkeeping in Hga.
    destruct Hga as (m & _ & _ & Hga & _). lia. }
  lia.
Qed.

Lemma generations_are_bounded_by_the_budget_witness :
  exists s,
    reaches Scenario.cfg_A Scenario.start_A s /\
    current_generation s = 1 /\
    current_generation s <= Z.max 0 (max_evals Scenario.cfg_A - init_size Scenario.cfg_A).
Proof.
  eexists.
  match goal with
  | |- ?A /\ _ =>
      assert (Hr : A)
        by (eapply reaches_step with (fuel := 10%nat);
            [vm_compute; reflexivity | vm_compute; reflexivity | apply reaches_refl])
  end.
  split; [exact Hr|]. split; [reflexivity|].
  exact (proj2 (proj1 (generations_are_bounded_by_the_budget _ _ _ _ _ _ _ _ _ _ _
                         Scenario.cfg_A Scenario.start_A _ initialise_A eq_refl Hr))).
Defined.

(** ** The memory size is taken as given *)

(** X20. [memory_size] is not among the checked parameters. A negative
    value does not get past the initialisation, and with the value 0 the
    first generation fails: [np.random.choice] has no index to draw from,
    so [apply] raises [ValueError] as soon as the loop is entered. *)
Theorem memory_size_is_not_checked {commons : Commons}
    (psize isize : pyval) (bnds : bounds_arg) (f : individual -> float)
    (msize : Z) (prec mec mevals seed : pyval) (return_history : bool)
    (generators : option Z -> Rng) (gens fuel : nat)
    (cfg : config) (s0 : state) :
  msize <= 0 ->
  initialise psize isize bnds f msize prec mec mevals seed generators fuel
  = Ret (cfg, s0) ->
  loop_guard cfg s0 = true ->
  msize = 0 /\
  apply psize isize bnds f msize prec mec mevals seed return_history
        generators (S gens) fuel
  = Raise (ValueError "'a' cannot be empty unless no samples are taken").
Proof.
  intros Hm Hi Hg.
  pose proof (initialise_start _ _ _ _ _ _ _ _ _ _ _ _ _ Hi)
    as (_ & _ & Hp & _ & Hpos & _).
  assert (Hms : memory_size cfg = msize /\ 0 <= msize).
  { pose proof Hi as Hi'. unfold initialise in Hi'.
    ret_inv Hi' as psz _. ret_inv Hi' as isz _. ret_inv Hi' as mev _.
    ret_inv Hi' as u _. ret_inv Hi' as b _. ret_inv Hi' as sd _.
    destruct (init_population psz isz b (generators sd)) as [pop g].
    ret_inv Hi' as mcr Emcr. ret_inv Hi' as mf _.
    ret_inv Hi' as mi _. ret_inv Hi' as bf _.
    injection Hi' as <- _. split; [reflexivity|].
    unfold np_ones_half in Emcr.
    destruct (msize <? 0) eqn:E; [discriminate|]. apply Z.ltb_ge in E. exact E. }
  destruct Hms as [Hms Hnn].
  assert (H0 : msize = 0) by lia.
  split; [exact H0|].
  unfold apply. rewrite Hi. cbn [bind run]. rewrite Hg.
  unfold generation, variation, sample_parameters, np_random_choice.
  rewrite Hms, H0, Hp.
  destruct (init_size cfg <? 0) eqn:E1; [apply Z.ltb_lt in E1; lia|].
  destruct (0 <? init_size cfg) eqn:E2; [|apply Z.ltb_ge in E2; lia].
  reflexivity.
Qed.

Lemma memory_size_is_not_checked_witness :
  apply (PyInt 5) (PyInt 1) Scenario.wide Scenario.sphere 0 (PyFloat 1e-6)
        (PyInt 10) (PyInt 12) (PyInt 1) false
        (Scenario.scripted Scenario.reals_A) 1 100
  = Raise (ValueError "'a' cannot be empty unless no samples are taken").
Proof.
  refine (proj2 (memory_size_is_not_checked _ _ _ _ 0 _ _ _ _ false _ 0%nat 100%nat
                   _ _ (Z.le_refl 0) _ _)).
  - vm_compute; reflexivity.
  - vm_compute; reflexivity.
Defined.

(** ** C6: the population size *)

Example initialise_H :
  initialise (PyInt 10) (PyInt 1) wide sphere 6 (PyFloat 1e-6) (PyInt 10)
             (PyInt 11) (PyInt 1) (scripted reals_F) 100
  = Ret (cfg_H, start_F).
Proof. vm_compute; reflexivity. Qed.



Section PopulationCount.

Context {commons : Commons}.
Variable cfg : config.







End PopulationCount.



(** On a grid of small runs the schedule's target is at least 4 whenever
    the initial size is and the budget is not overrun. *)
Example target_floor_on_grid :
  forallb (fun init =>
    forallb (fun budget =>
      forallb (fun used => target_at_least 4 init budget used)
              (map Z.of_nat (seq 0 (S (Z.to_nat budget)))))
      (map Z.of_nat (seq 1 40)))
    (map Z.of_nat (seq 4 30))
  = true.
Proof. vm_compute; reflexivity. Qed.
